(** * brownant.pipeline.base: the [PipelineProperty] descriptor

    A shallow embedding of [src/brownant/pipeline/base.py], read as Python 3.

    - Python values are a small inductive universe of immutable values
      ([value]); a string is a sequence of code points below 256.
    - An instance is its attribute dictionary ([__dict__]): one namespace, in
      which an attribute is bound to a value or to a [dict] with string keys
      ([attr]).  An attribute is looked up on the instance first and on the
      class second, each time it is read.
    - The keyword arguments are an insertion-ordered [dict]: a list of items
      with distinct keys.  A [set] of strings is a [gset string]; the order
      in which Python visits it depends on the hash seed and is a parameter.
    - The conversion [%r] of line 52 is [repr] of a [str], written out.
    - A method of [PipelineProperty] is a computation in a state-and-exception
      monad over the instance ([M]): the instance is mutated in place and the
      mutation survives a raised exception, exactly as in Python.
    - The members a concrete subclass supplies are the fields of
      [pipeline_class].
    - The base class [cached_property] is imported from werkzeug: its
      initialiser and the attribute names it refuses to bind are parameters,
      and [LazyCache] models its memoizing read accessor as the
      specification describes it. *)

From Stdlib Require Import Ascii.
From stdpp Require Import gmap strings list fin_maps.

Open Scope string_scope.

(** ** Python values and exceptions *)

Inductive value : Type :=
| VNone
| VBool (b : bool)
| VInt (z : Z)
| VStr (s : string).

#[global] Instance value_eq_dec : EqDecision value.
Proof. solve_decision. Defined.

(** The exceptions the module can raise:
    - [TypeError msg] is raised by [__init__] (line 52) and by the built-in
      operations applied to a value of the wrong type;
    - [KeyError key] is raised by the subscript [self.attr_names[name]];
    - [AttributeError name] is raised by an attribute lookup that finds
      nothing, on the instance or through the built-in [getattr]. *)
Inductive exn : Type :=
| TypeError (msg : string)
| KeyError (key : string)
| AttributeError (name : string).

#[global] Instance exn_eq_dec : EqDecision exn.
Proof. solve_decision. Defined.

Inductive result (A : Type) : Type :=
| Ok (a : A)
| Raise (e : exn).
Arguments Ok {A} a.
Arguments Raise {A} e.

(** ** Built-ins used by the module *)

Module Builtins.

(** [s.endswith(suffix)] *)
Fixpoint endswith (s suffix : string) : bool :=
  if String.eqb s suffix then true
  else match s with
       | EmptyString => false
       | String _ s' => endswith s' suffix
       end.

(** [sep.join(l)] *)
Fixpoint join (sep : string) (l : list string) : string :=
  match l with
  | [] => ""
  | [x] => x
  | x :: l' => x +:+ sep +:+ join sep l'
  end.

(** [needle in haystack] for strings, as a proposition. *)
Definition occurs_in (needle haystack : string) : Prop :=
  ∃ before after, haystack = before +:+ needle +:+ after.

(** [needle in haystack] for strings, as Python computes it. *)
Fixpoint str_contains (needle haystack : string) : bool :=
  if String.prefix needle haystack then true
  else match haystack with
       | EmptyString => false
       | String _ h => str_contains needle h
       end.

(** [repr] of a string that has no quote, backslash or non-printable
    character: the string between single quotes. *)
Definition repr_plain (s : string) : string := "'" +:+ s +:+ "'".

(** The characters [repr] treats specially. *)
Definition squote : ascii := ascii_of_nat 39.
Definition dquote : ascii := ascii_of_nat 34.
Definition backslash : ascii := ascii_of_nat 92.

(** [c.isprintable()] for a code point below 256: the ASCII range from the
    space to the tilde, and the Latin-1 range but for the no-break space and
    the soft hyphen. *)
Definition is_printable (c : ascii) : bool :=
  let n := nat_of_ascii c in
  ((32 <=? n)%nat && (n <? 127)%nat) || ((161 <=? n)%nat && negb (n =? 173)%nat).

Definition hex_digit (n : nat) : ascii :=
  match n with
  | 0 => "0" | 1 => "1" | 2 => "2" | 3 => "3" | 4 => "4" | 5 => "5"
  | 6 => "6" | 7 => "7" | 8 => "8" | 9 => "9" | 10 => "a" | 11 => "b"
  | 12 => "c" | 13 => "d" | 14 => "e" | _ => "f"
  end%nat%char.

(** What [repr] writes for one character, between quotes of kind [quote]. *)
Definition escape_char (quote c : ascii) : string :=
  let n := nat_of_ascii c in
  if Ascii.eqb c quote || Ascii.eqb c backslash then String backslash (String c "")
  else if (n =? 9)%nat then String backslash "t"
  else if (n =? 10)%nat then String backslash "n"
  else if (n =? 13)%nat then String backslash "r"
  else if is_printable c then String c ""
  else String backslash (String "x" (String (hex_digit (n / 16)%nat)
                                             (String (hex_digit (n mod 16)%nat) ""))).

Fixpoint escape (quote : ascii) (s : string) : string :=
  match s with
  | EmptyString => ""
  | String c s' => escape_char quote c +:+ escape quote s'
  end.

Fixpoint has_char (c : ascii) (s : string) : bool :=
  match s with
  | EmptyString => false
  | String c' s' => Ascii.eqb c c' || has_char c s'
  end.

(** The quote [repr] chooses: the double quote when the string has a single
    quote and no double quote, the single quote otherwise. *)
Definition repr_quote (s : string) : ascii :=
  if has_char squote s && negb (has_char dquote s) then dquote else squote.

(** [repr(s)] for a [str], which is what the conversion [%r] inserts. *)
Definition repr (s : string) : string :=
  let q := repr_quote s in
  String q (escape q s +:+ String q "").

(** A character [repr] copies unchanged, whichever quote it chose. *)
Definition plain_char (c : ascii) : bool :=
  is_printable c && negb (Ascii.eqb c squote) && negb (Ascii.eqb c dquote)
  && negb (Ascii.eqb c backslash).

Fixpoint plain (s : string) : bool :=
  match s with
  | EmptyString => true
  | String c s' => plain_char c && plain s'
  end.

(** [type(v).__name__] *)
Definition type_name (v : value) : string :=
  match v with
  | VNone => "NoneType"
  | VBool _ => "bool"
  | VInt _ => "int"
  | VStr _ => "str"
  end.

End Builtins.
Export Builtins.

(** ** The descriptor instance *)

(** What an instance attribute is bound to: an immutable value, or a [dict]
    with string keys such as [__init__] creates at lines 33 and 35. *)
Inductive attr : Type :=
| AVal (v : value)
| ADict (d : gmap string value).

#[global] Instance attr_eq_dec : EqDecision attr.
Proof. solve_decision. Defined.

Definition attr_type_name (a : attr) : string :=
  match a with
  | AVal v => type_name v
  | ADict _ => "dict"
  end.

(** A [PipelineProperty] instance: its attribute dictionary.  [self.x = v]
    and [setattr(self, "x", v)] bind [x] in it, whatever [x] is, unless the
    base classes refuse the name; [self.x] reads it before the class is
    consulted. *)
Record PipelineProperty : Type := mkPipelineProperty {
  __dict__ : gmap string attr
}.

(** A freshly allocated instance, before [__init__] runs. *)
Definition object_new : PipelineProperty := mkPipelineProperty ∅.

(** A target object, as far as [getattr] can see it. *)
Definition target_fields : Type := gmap string value.

(** ** The state-and-exception monad of instance methods *)

Definition M (A : Type) : Type := PipelineProperty → PipelineProperty * result A.

Definition ret {A} (a : A) : M A := λ self, (self, Ok a).

Definition raise {A} (e : exn) : M A := λ self, (self, Raise e).

Definition bind {A B} (m : M A) (k : A → M B) : M B := λ self,
  match m self with
  | (self', Ok a) => k a self'
  | (self', Raise e) => (self', Raise e)
  end.

#[global] Instance M_ret : MRet M := @ret.
#[global] Instance M_bind : MBind M := λ A B k m, bind m k.

(** [for x in l: acc = body(x, acc)], with the loop-carried local [acc]. *)
Fixpoint for_each {A B} (l : list A) (body : A → B → M B) (acc : B) : M B :=
  match l with
  | [] => ret acc
  | x :: l' => acc' ← body x acc; for_each l' body acc'
  end.

(** [self.<attr_name>[key] = value]: the attribute is read, and the item is
    stored in the [dict] it is bound to; a value of the universe does not
    support item assignment. *)
Definition setitem_self (attr_name key : string) (v : value) : M unit := λ self,
  match __dict__ self !! attr_name with
  | None => (self, Raise (AttributeError attr_name))
  | Some (ADict d) =>
      (mkPipelineProperty (<[attr_name := ADict (<[key := v]> d)]> (__dict__ self)),
       Ok tt)
  | Some (AVal x) =>
      (self, Raise (TypeError ("'" +:+ type_name x +:+
                               "' object does not support item assignment")))
  end.

(** [a[key]] *)
Definition subscript (a : attr) (key : string) : result value :=
  match a with
  | ADict d =>
      match d !! key with
      | Some v => Ok v
      | None => Raise (KeyError key)
      end
  | AVal (VStr _) => Raise (TypeError "string indices must be integers, not 'str'")
  | AVal x => Raise (TypeError ("'" +:+ type_name x +:+ "' object is not subscriptable"))
  end.

(** [getattr(obj, attr_name)] on a target object. *)
Definition getattr (obj : target_fields) (attr_name : value) : result value :=
  match attr_name with
  | VStr s =>
      match obj !! s with
      | Some v => Ok v
      | None => Raise (AttributeError s)
      end
  | _ => Raise (TypeError "getattr(): attribute name must be string")
  end.

(** ** The class *)

(** What a class in the hierarchy of [PipelineProperty] defines:
    [required_attrs] (line 24, overridden by subclasses), [prepare] (line 56,
    overridden by subclasses) and, in a concrete subclass only,
    [provide_value]. *)
Record pipeline_class : Type := mkClass {
  required_attrs : gset string;
  prepare : M unit;
  has_provide_value : bool
}.

Section PipelineProperty.

Variable cls : pipeline_class.

(** The names the base classes ([cached_property] and the built-in classes
    it derives from, none of them under src/) do not let [setattr] bind on an
    instance, each with the exception the attempt raises. *)
Variable rejected : string → option exn.

(** The initialiser of the base class [cached_property], applied to the
    provider.  It belongs to werkzeug and is not under src/. *)
Variable cached_property_init : M unit.

(** The order in which line 52 visits the elements of the set
    [lacked_attrs]; Python leaves it to the hash seed. *)
Variable iter_set : gset string → list string.

(** [self.<name> = a]: the name is bound in the instance dictionary, unless
    the base classes refuse the assignment. *)
Definition store_attr (name : string) (a : attr) : M unit := λ self,
  match rejected name with
  | Some e => (self, Raise e)
  | None => (mkPipelineProperty (<[name := a]> (__dict__ self)), Ok tt)
  end.

(** [setattr(self, name, value)] *)
Definition setattr (name : string) (v : value) : M unit :=
  store_attr name (AVal v).

(** Line 27: [self.provide_value] is looked up, then the base-class
    initialiser is called with it. *)
Definition call_base_init : M unit := λ self,
  match __dict__ self !! "provide_value" with
  | Some _ => cached_property_init self
  | None =>
      if has_provide_value cls then cached_property_init self
      else (self, Raise (AttributeError "provide_value"))
  end.

(** [name in self.required_attrs] (line 45). *)
Definition in_required_attrs (name : string) : M bool := λ self,
  match __dict__ self !! "required_attrs" with
  | None => (self, Ok (bool_decide (name ∈ required_attrs cls)))
  | Some (ADict d) => (self, Ok (bool_decide (is_Some (d !! name))))
  | Some (AVal (VStr s)) => (self, Ok (str_contains name s))
  | Some (AVal x) =>
      (self, Raise (TypeError ("argument of type '" +:+ type_name x +:+
                               "' is not iterable")))
  end.

(** [self.required_attrs - assigned_attrs] (line 50). *)
Definition required_attrs_minus (assigned_attrs : gset string) : M (gset string) :=
  λ self,
  match __dict__ self !! "required_attrs" with
  | None => (self, Ok (required_attrs cls ∖ assigned_attrs))
  | Some a =>
      (self, Raise (TypeError ("unsupported operand type(s) for -: '" +:+
                               attr_type_name a +:+ "' and 'set'")))
  end.

(** [self.prepare()] (line 54). *)
Definition call_prepare : M unit := λ self,
  match __dict__ self !! "prepare" with
  | None => prepare cls self
  | Some a =>
      (self, Raise (TypeError ("'" +:+ attr_type_name a +:+
                               "' object is not callable")))
  end.

(** The body of the [for] loop, lines 39-49. *)
Definition init_loop_body (item : string * value) (assigned_attrs : gset string)
  : M (gset string) :=
  let '(name, v) := item in
  let assigned_attrs := assigned_attrs ∪ {[name]} in
  (if endswith name "_attr" then setitem_self "attr_names" name v
   else
     (is_required ← in_required_attrs name;
      if is_required : bool then setattr name v
      else setitem_self "options" name v) : M unit) ;;
  mret assigned_attrs.

(** [__init__], with the keyword arguments as the list of their items. *)
Definition __init__ (kwargs : list (string * value)) : M unit :=
  call_base_init ;;
  store_attr "__name__" (AVal VNone) ;;
  store_attr "__module__" (AVal VNone) ;;
  store_attr "__doc__" (AVal VNone) ;;
  store_attr "attr_names" (ADict ∅) ;;
  store_attr "options" (ADict ∅) ;;
  assigned_attrs ← for_each kwargs init_loop_body ∅;
  lacked_attrs ← required_attrs_minus assigned_attrs;
  (if bool_decide (lacked_attrs ≠ ∅)
   then raise (TypeError ("required attrs " +:+
                          repr (join ", " (iter_set lacked_attrs))))
   else mret tt) ;;
  call_prepare.

End PipelineProperty.

(** [get_attr(self, obj, name)], lines 80-81.  It does not mutate [self]. *)
Definition get_attr (self : PipelineProperty) (obj : target_fields)
    (name : string) : result value :=
  match __dict__ self !! "attr_names" with
  | None => Raise (AttributeError "attr_names")
  | Some a =>
      match subscript a name with
      | Ok attr_name => getattr obj attr_name
      | Raise e => Raise e
      end
  end.

(** [prepare] as the base class defines it: the body is a docstring only. *)
Definition prepare_base : M unit := mret tt.

(** The class as the file defines it: no required attribute, the empty
    [prepare], and no [provide_value]. *)
Definition PipelineProperty_class : pipeline_class :=
  mkClass ∅ prepare_base false.

(** A concrete subclass: it defines [provide_value]. *)
Definition subclass (required_attrs : gset string) (prepare : M unit)
  : pipeline_class :=
  mkClass required_attrs prepare true.

(** Calling the class with keyword arguments: allocate, then initialise.
    The first component is the instance as [__init__] left it, the second
    tells whether it raised. *)
Definition construct (cls : pipeline_class) (rejected : string → option exn)
    (cached_property_init : M unit) (iter_set : gset string → list string)
    (kwargs : list (string * value))
  : PipelineProperty * result unit :=
  __init__ cls rejected cached_property_init iter_set kwargs object_new.

(** ** The lazy cache *)

Module LazyCache.

Definition descriptor_id : Type := positive.
Definition object_id : Type := positive.

(** Modelled from the spec: the storage of a target object.  The base class
    [cached_property] (imported from werkzeug, line 1) is not under src/;
    section 3 of the specification gives a target object one cache slot per
    descriptor, kept on the object's own storage and keyed by the
    descriptor's identity. *)
Record target : Type := mkTarget {
  fields : target_fields;
  slots : gmap descriptor_id value
}.

(** The objects alive, the state the provider keeps for itself (a call
    counter, say), and the log of provider invocations, most recent first. *)
Record world (PS : Type) : Type := mkWorld {
  heap : gmap object_id target;
  provider_state : PS;
  calls : list (descriptor_id * object_id)
}.
Arguments mkWorld {PS} heap provider_state calls.
Arguments heap {PS} w.
Arguments provider_state {PS} w.
Arguments calls {PS} w.

Section cache.

Context {PS : Type}.

(** [provide_value(self, obj)] of the descriptor with the given identity; the
    concrete subclass supplies it. *)
Variable provide_value : descriptor_id → target_fields → PS → PS * result value.

(** Modelled from the spec: the read accessor of the lazily computed
    property, which the class inherits from [cached_property] (werkzeug, not
    under src/).  Section 4.3: the first read through a target object invokes
    [provide_value] once, stores the returned value in the slot of that
    object and returns it; later reads return the stored value.  Section 7: a
    failure of the provider propagates unmodified and nothing is stored.
    [None] stands for a dangling object reference. *)
Definition read (d : descriptor_id) (o : object_id) (w : world PS)
  : option (world PS * result value) :=
  t ← heap w !! o;
  match slots t !! d with
  | Some v => Some (w, Ok v)
  | None =>
      let '(ps, r) := provide_value d (fields t) (provider_state w) in
      let log := (d, o) :: calls w in
      match r with
      | Ok v =>
          Some (mkWorld
                  (<[o := mkTarget (fields t) (<[d := v]> (slots t))]> (heap w))
                  ps log,
                Ok v)
      | Raise e => Some (mkWorld (heap w) ps log, Raise e)
      end
  end.

(** A sequence of reads, each with its outcome. *)
Fixpoint run (tr : list (descriptor_id * object_id)) (w : world PS)
  : option (world PS * list (result value)) :=
  match tr with
  | [] => Some (w, [])
  | (d, o) :: tr' =>
      '(w1, r) ← read d o w;
      '(w2, rs) ← run tr' w1;
      Some (w2, r :: rs)
  end.

(** How often the provider of [d] has been invoked for object [o]. *)
Definition invocations (d : descriptor_id) (o : object_id) (w : world PS) : nat :=
  length (filter (λ c, c = (d, o)) (calls w)).

End cache.

End LazyCache.
Import LazyCache.
(** ** Statements used by the theorems *)

(** The names the loop and line 50 read on the instance, and those
    [__init__] reads as a whole (line 54 adds [prepare]). *)
Definition loop_members : gset string :=
  {["attr_names"; "options"; "required_attrs"]}.
Definition init_members : gset string :=
  {["attr_names"; "options"; "required_attrs"; "prepare"]}.

(** The keyword names, and the value passed under a name. *)
Definition keys (kwargs : list (string * value)) : gset string :=
  list_to_set kwargs.*1.
Definition passed (kwargs : list (string * value)) (name : string)
  : option value :=
  (list_to_map kwargs : gmap string value) !! name.

(** The attributes [__init__] binds by name at lines 28-35. *)
Definition own_attributes : gset string :=
  {["__name__"; "__module__"; "__doc__"; "attr_names"; "options"]}.

(** The base classes let [setattr] bind every one of [names]. *)
Definition bindable (rejected : string → option exn) (names : gset string)
  : Prop :=
  ∀ n, n ∈ names → rejected n = None.

(** What the constructor of a subclass needs from the base classes: for a
    fresh instance the base-class initialiser (line 27) returns, leaving the
    instance [s1], on which it has bound neither [required_attrs] nor
    [prepare]; and the attributes of lines 28-35 and the required names can
    be bound on an instance. *)
Definition base_classes_cooperate (rejected : string → option exn)
    (cached_property_init : M unit) (required : gset string)
    (s1 : PipelineProperty) : Prop :=
  cached_property_init object_new = (s1, Ok tt)
  ∧ __dict__ s1 !! "required_attrs" = None
  ∧ __dict__ s1 !! "prepare" = None
  ∧ bindable rejected own_attributes
  ∧ bindable rejected required.

(** [iter_set] visits every element of a set once, in some order. *)
Definition set_iteration (iter_set : gset string → list string) : Prop :=
  ∀ X, iter_set X ≡ₚ elements X.

(** The three classification rules as predicates on a keyword name, in the
    precedence the [if]/[elif]/[else] chain gives them. *)
Definition to_attr_names (name : string) : bool := endswith name "_attr".
Definition to_attrs (required_attrs : gset string) (name : string) : bool :=
  negb (endswith name "_attr") && bool_decide (name ∈ required_attrs).
Definition to_options (required_attrs : gset string) (name : string) : bool :=
  negb (endswith name "_attr") && negb (bool_decide (name ∈ required_attrs)).

(** What a destination holds under [k] once the items of [kw] selected by
    [sel] have been stored into [m0]. *)
Definition routed {B} (inj : value → B) (sel : string → bool)
    (kw : gmap string value) (m0 : gmap string B) (k : string) : option B :=
  match kw !! k with
  | Some v => if sel k then Some (inj v) else m0 !! k
  | None => m0 !! k
  end.

(** The instance when the loop starts: lines 28-35 applied to the instance
    the base-class initialiser left. *)
Definition before_loop (s : PipelineProperty) : PipelineProperty :=
  mkPipelineProperty
    (<["options" := ADict ∅]>
       (<["attr_names" := ADict ∅]>
          (<["__doc__" := AVal VNone]>
             (<["__module__" := AVal VNone]>
                (<["__name__" := AVal VNone]> (__dict__ s)))))).

(** The instance as the loop of [__init__] leaves it. *)
Definition after_loop (cls : pipeline_class) (rejected : string → option exn)
    (kwargs : list (string * value)) (s : PipelineProperty) : PipelineProperty :=
  (for_each kwargs (init_loop_body cls rejected) ∅ (before_loop s)).1.

(** The loop has not rebound the instance attribute [name]. *)
Definition untouched (before self : PipelineProperty) (name : string) : Prop :=
  name ≠ "attr_names" → name ≠ "options" →
  __dict__ self !! name = __dict__ before !! name.

(** Every keyword argument sits in exactly one destination, the one the
    precedence of the rules selects: the [dict] bound to [attr_names], an
    instance attribute of its own, or the [dict] bound to [options].  The two
    dicts hold nothing else, and no other instance attribute has been
    rebound since [before]. *)
Definition classified (required_attrs : gset string)
    (kwargs : list (string * value)) (before self : PipelineProperty) : Prop :=
  ∃ names opts,
    __dict__ self !! "attr_names" = Some (ADict names)
    ∧ __dict__ self !! "options" = Some (ADict opts)
    ∧ ∀ name,
        match passed kwargs name with
        | Some v =>
            if endswith name "_attr" then
              names !! name = Some v
              ∧ opts !! name = None ∧ untouched before self name
            else if decide (name ∈ required_attrs) then
              __dict__ self !! name = Some (AVal v)
              ∧ names !! name = None ∧ opts !! name = None
            else
              opts !! name = Some v
              ∧ names !! name = None ∧ untouched before self name
        | None =>
            names !! name = None
            ∧ opts !! name = None ∧ untouched before self name
        end.

(** The [dict] bound to [dict_name], if it is one, has no entry [name]. *)
Definition no_entry (self : PipelineProperty) (dict_name name : string) : Prop :=
  ∀ d, __dict__ self !! dict_name = Some (ADict d) → d !! name = None.

(** The text of the error of line 52 for the missing names [lacked], in the
    order in which they are joined. *)
Definition missing_message (lacked : list string) : string :=
  "required attrs " +:+ repr (join ", " lacked).

(** ** The claims in the specification's words *)


(** C2: whenever a required name is missing, construction fails with the
    error that lists every missing name. *)
Definition reports_missing_claim (required_attrs : gset string)
    (rejected : string → option exn) (cached_property_init : M unit)
    (iter_set : gset string → list string) (kwargs : list (string * value))
  : Prop :=
  ¬ (required_attrs ⊆ keys kwargs) →
  ∃ self lacked,
    construct (subclass required_attrs prepare_base) rejected
      cached_property_init iter_set kwargs = (self, Raise (TypeError (missing_message lacked)))
    ∧ ∀ n, n ∈ required_attrs → n ∉ keys kwargs → n ∈ lacked.

(** C8: a construction that fails for a missing required attribute has
    stored none of the keyword arguments. *)
Definition atomic_on_error_claim (required_attrs : gset string)
    (rejected : string → option exn) (cached_property_init : M unit)
    (iter_set : gset string → list string) (kwargs : list (string * value))
  : Prop :=
  ¬ (required_attrs ⊆ keys kwargs) →
  let self := (construct (subclass required_attrs prepare_base) rejected
                 cached_property_init iter_set kwargs).1 in
  __dict__ self !! "attr_names" = Some (ADict ∅)
  ∧ __dict__ self !! "options" = Some (ADict ∅)
  ∧ ∀ name, name ∈ required_attrs → __dict__ self !! name = None.

(** C9: after a successful construction every keyword argument named in
    [required_attrs] is an instance attribute, and its value is stored under
    its name in neither [options] nor [attr_names]. *)
Definition required_kwargs_are_fields_claim (cls : pipeline_class)
    (rejected : string → option exn) (cached_property_init : M unit)
    (iter_set : gset string → list string) (kwargs : list (string * value))
  : Prop :=
  ∀ self name v,
    construct cls rejected cached_property_init iter_set kwargs = (self, Ok tt) →
    name ∈ required_attrs cls → passed kwargs name = Some v →
    __dict__ self !! name = Some (AVal v)
    ∧ (∀ d, __dict__ self !! "options" = Some (ADict d) → d !! name ≠ Some v)
    ∧ (∀ d, __dict__ self !! "attr_names" = Some (ADict d) → d !! name ≠ Some v).


(** ** Further members of the class *)

(** [d.setdefault(key, default)], used as a statement: the dict keeps the
    value it has under [key], or gets [default] when it has none. *)
Definition dict_setdefault (d : gmap string value) (key : string)
    (default : value) : gmap string value :=
  match d !! key with
  | Some _ => d
  | None => <[key := default]> d
  end.

(** [self.<attr_name>.setdefault(key, default)]; a value of the universe has
    no method [setdefault]. *)
Definition setdefault_self (attr_name key : string) (default : value) : M unit :=
  λ self,
  match __dict__ self !! attr_name with
  | None => (self, Raise (AttributeError attr_name))
  | Some (ADict d) =>
      (mkPipelineProperty
         (<[attr_name := ADict (dict_setdefault d key default)]> (__dict__ self)),
       Ok tt)
  | Some (AVal _) => (self, Raise (AttributeError "setdefault"))
  end.

(** The override of [prepare] that the docstring gives as its example
    (lines 67-69). *)
Definition prepare_example : M unit :=
  setdefault_self "attr_names" "raw_html_attr" (VStr "raw_html") ;;
  setdefault_self "options" "use_proxy" (VBool false).

(** ** Concrete inputs *)

Definition kwargs_demo : list (string * value) :=
  [("raw_html_attr", VStr "raw_html"); ("url", VStr "http://example.org");
   ("use_proxy", VBool true)].


Definition kwargs_suffix_url : list (string * value) :=
  [("url", VStr "http://example.org"); ("timeout", VInt 3)].

Definition kwargs_suffix_only : list (string * value) :=
  [("raw_html_attr", VStr "raw_html")].

(** Base classes for the examples: they refuse to bind [__class__] and
    [__dict__] to a value, and the initialiser names the descriptor after
    the provider. *)
Definition rejected_demo (name : string) : option exn :=
  if String.eqb name "__class__" then
    Some (TypeError "__class__ must be set to a class")
  else if String.eqb name "__dict__" then
    Some (TypeError "__dict__ must be set to a dictionary")
  else None.

Definition base_init_demo : M unit :=
  store_attr rejected_demo "__name__" (AVal (VStr "provide_value")) ;;
  store_attr rejected_demo "__module__" (AVal (VStr "brownant.pipeline.base")).

Definition instance_after_base_init : PipelineProperty :=
  (base_init_demo object_new).1.

(** A set iteration order for the examples. *)
Definition iter_demo (X : gset string) : list string := reverse (elements X).

Definition descriptor_demo : PipelineProperty :=
  (construct (subclass {["url"]} prepare_base) rejected_demo base_init_demo
     iter_demo kwargs_demo).1.

Definition target_demo : target_fields :=
  <["raw_html" := VStr "hello"]> (<["status" := VInt 200]> ∅).

(** A provider that reads the configured field and counts its calls. *)
Definition provider_demo (d : descriptor_id) (obj : target_fields) (n : nat)
  : nat * result value :=
  (S n, get_attr descriptor_demo obj "raw_html_attr").

(** A provider that raises on its first call and succeeds afterwards. *)
Definition provider_flaky (d : descriptor_id) (obj : target_fields) (n : nat)
  : nat * result value :=
  (S n, match n with
        | O => Raise (TypeError "not ready")
        | S _ => get_attr descriptor_demo obj "raw_html_attr"
        end).

(** Two target objects, neither read so far. *)
Definition world_demo : world nat :=
  mkWorld (<[1%positive := mkTarget target_demo ∅]>
             (<[2%positive := mkTarget (<["raw_html" := VStr "bye"]> ∅) ∅]> ∅))
          0 [].

(** * Proofs *)

#[local] Set Warnings "-clear-no-such-hyp".

Ltac unfold_M :=
  unfold mbind, M_bind, bind, mret, M_ret, ret, raise, setattr, store_attr in *.

Ltac by_computation :=
  first [ refine (bool_decide_unpack _ _); vm_compute; exact I
        | refine (proj1 (bool_decide_eq_false _) _); vm_compute; reflexivity ].

(** ** Sanity checks on concrete inputs *)

Example endswith_examples :
  endswith "raw_html_attr" "_attr" = true ∧ endswith "_attr" "_attr" = true ∧
  endswith "attr" "_attr" = false ∧ endswith "_attrs" "_attr" = false.
Proof. repeat split; reflexivity. Qed.

Example join_example : join ", " ["url"; "name"; "x"] = "url, name, x".
Proof. reflexivity. Qed.

Example repr_examples :
  repr "parser, url" = "'parser, url'"
  ∧ repr "it's" = String dquote ("it's" +:+ String dquote "")
  ∧ repr (String backslash "n") = String squote (String backslash (String backslash "n'")).
Proof. repeat split; reflexivity. Qed.

Example construct_demo_ok :
  construct (subclass {["url"]} prepare_base) rejected_demo base_init_demo
    iter_demo kwargs_demo
  = (mkPipelineProperty
       (<["options" := ADict {["use_proxy" := VBool true]}]>
          (<["url" := AVal (VStr "http://example.org")]>
             (<["attr_names" := ADict {["raw_html_attr" := VStr "raw_html"]}]>
                (<["__doc__" := AVal VNone]>
                   (<["__module__" := AVal VNone]>
                      (<["__name__" := AVal VNone]> ∅)))))), Ok tt).
Proof. vm_compute. reflexivity. Qed.

Example construct_demo_raises :
  (construct (subclass {["url"; "parser"]} prepare_base) rejected_demo base_init_demo iter_demo
     kwargs_demo).2
  = Raise (TypeError "required attrs 'parser'").
Proof. vm_compute. reflexivity. Qed.

(** A required name that shadows [options]: the order of the keywords
    decides whether line 49 is reached with [self.options] rebound. *)
Example construct_shadowed_options :
  (construct (subclass {["options"]} prepare_base) rejected_demo base_init_demo iter_demo
     [("options", VInt 1); ("zebra", VInt 2)]).2
  = Raise (TypeError "'int' object does not support item assignment")
  ∧ (construct (subclass {["options"]} prepare_base) rejected_demo base_init_demo iter_demo
       [("zebra", VInt 2); ("options", VInt 1)]).2
    = Ok tt.
Proof. split; vm_compute; reflexivity. Qed.

Example construct_shadowed_prepare :
  (construct (subclass {["prepare"]} prepare_base) rejected_demo base_init_demo iter_demo
     [("prepare", VInt 5)]).2
  = Raise (TypeError "'int' object is not callable").
Proof. vm_compute. reflexivity. Qed.

(** A required name the base classes refuse to bind: line 46 raises. *)
Example construct_rejected_name :
  (construct (subclass {["__class__"]} prepare_base) rejected_demo
     base_init_demo iter_demo [("__class__", VInt 1)]).2
  = Raise (TypeError "__class__ must be set to a class").
Proof. vm_compute. reflexivity. Qed.

Example get_attr_demo :
  get_attr descriptor_demo target_demo "raw_html_attr" = Ok (VStr "hello")
  ∧ get_attr descriptor_demo target_demo "text_attr" = Raise (KeyError "text_attr")
  ∧ get_attr descriptor_demo ∅ "raw_html_attr" = Raise (AttributeError "raw_html").
Proof. repeat split; vm_compute; reflexivity. Qed.

Example run_demo :
  snd <$> run provider_demo [(1, 1); (1, 2); (1, 1)]%positive world_demo
  = Some [Ok (VStr "hello"); Ok (VStr "bye"); Ok (VStr "hello")].
Proof. vm_compute. reflexivity. Qed.

(** ** Strings *)

Lemma endswith_refl s : endswith s s = true.
Proof. destruct s; simpl; [done|]. by rewrite Ascii.eqb_refl, String.eqb_refl. Qed.

Lemma endswith_cons a s suffix :
  endswith (String a s) suffix =
  if String.eqb (String a s) suffix then true else endswith s suffix.
Proof. reflexivity. Qed.

Lemma endswith_app p s : endswith (p +:+ s) s = true.
Proof.
  induction p as [|a p IH]; [apply endswith_refl|].
  change (String a p +:+ s) with (String a (p +:+ s)).
  rewrite endswith_cons, IH. by destruct (String.eqb _ _).
Qed.

(** [endswith] is the suffix test. *)
Lemma endswith_spec s suffix :
  endswith s suffix = true ↔ ∃ p, s = p +:+ suffix.
Proof.
  split.
  - induction s as [|a s IH].
    + unfold endswith. destruct (String.eqb "" suffix) eqn:E; [|done].
      apply String.eqb_eq in E as <-. by exists "".
    + rewrite endswith_cons. destruct (String.eqb (String a s) suffix) eqn:E.
      * apply String.eqb_eq in E as <-. by exists "".
      * intros [p ->]%IH. by exists (String a p).
  - intros [p ->]. apply endswith_app.
Qed.

Lemma string_app_cons x (a b : string) : String x a +:+ b = String x (a +:+ b).
Proof. reflexivity. Qed.

Lemma string_app_nil_r (a : string) : a +:+ "" = a.
Proof. induction a as [|x a IH]; [done|]. by rewrite string_app_cons, IH. Qed.

Lemma string_app_assoc (a b c : string) : (a +:+ b) +:+ c = a +:+ (b +:+ c).
Proof. induction a as [|x a IH]; [done|]. by rewrite !string_app_cons, IH. Qed.

(** Every element of a list occurs in the joined string. *)
Lemma occurs_in_join sep l n : n ∈ l → occurs_in n (join sep l).
Proof.
  induction l as [|x l IH]; [by intros ?%elem_of_nil|].
  intros [->|Hin]%elem_of_cons.
  - destruct l as [|y l]; simpl.
    + exists "", "". by rewrite string_app_nil_r.
    + by exists "", (sep +:+ join sep (y :: l)).
  - destruct (IH Hin) as (b & a & E).
    destruct l as [|y l]; [by apply elem_of_nil in Hin|].
    exists (x +:+ sep +:+ b), a.
    change (join sep (x :: y :: l)) with (x +:+ sep +:+ join sep (y :: l)).
    rewrite E. by rewrite !string_app_assoc.
Qed.

(** ** [repr] *)

Lemma occurs_in_refl_app (a n b : string) : occurs_in n (a +:+ n +:+ b).
Proof. by exists a, b. Qed.

Lemma occurs_in_app_l (a n s : string) : occurs_in n s → occurs_in n (a +:+ s).
Proof.
  intros (b & c & ->). exists (a +:+ b), c. by rewrite !string_app_assoc.
Qed.

Lemma occurs_in_app_r (n s c : string) : occurs_in n s → occurs_in n (s +:+ c).
Proof.
  intros (a & b & ->). exists a, (b +:+ c). by rewrite !string_app_assoc.
Qed.

Lemma escape_app q (a b : string) : escape q (a +:+ b) = escape q a +:+ escape q b.
Proof.
  induction a as [|c a IH]; [done|].
  rewrite string_app_cons. cbn [escape]. by rewrite IH, string_app_assoc.
Qed.

Lemma repr_quote_cases s : repr_quote s = squote ∨ repr_quote s = dquote.
Proof. unfold repr_quote. destruct (_ && _); auto. Qed.

Lemma escape_char_plain q c :
  q = squote ∨ q = dquote → plain_char c = true → escape_char q c = String c "".
Proof.
  intros Hq Hc. destruct c as [b0 b1 b2 b3 b4 b5 b6 b7].
  destruct Hq as [-> | ->];
    destruct b0, b1, b2, b3, b4, b5, b6, b7; try discriminate Hc; reflexivity.
Qed.

Lemma escape_plain q s :
  q = squote ∨ q = dquote → plain s = true → escape q s = s.
Proof.
  intros Hq. induction s as [|c s IH]; [done|].
  cbn [plain escape]. intros [Hc Hs]%andb_prop.
  by rewrite escape_char_plain, IH.
Qed.

(** A piece of a string occurs, escaped, in the [repr] of the string. *)
Lemma occurs_in_repr n s :
  occurs_in n s → occurs_in (escape (repr_quote s) n) (repr s).
Proof.
  intros (a & b & E). unfold repr. set (q := repr_quote s).
  rewrite E at 1. rewrite !escape_app.
  change (String q ?x) with (String q "" +:+ x).
  apply occurs_in_app_l. rewrite <- !string_app_assoc.
  apply occurs_in_app_r. rewrite string_app_assoc. apply occurs_in_refl_app.
Qed.

(** [repr] of a plain string is the string between single quotes. *)
Lemma repr_plain_correct s : plain s = true → repr s = repr_plain s.
Proof.
  intros Hs. unfold repr, repr_plain.
  assert (Hq : has_char squote s = false).
  { induction s as [|c s IH]; [done|]. cbn [plain has_char] in *.
    apply andb_prop in Hs as [Hc Hs]. rewrite (IH Hs), orb_false_r.
    unfold plain_char in Hc. rewrite Ascii.eqb_sym.
    by destruct (Ascii.eqb c squote); rewrite ?andb_false_r in Hc. }
  unfold repr_quote. rewrite Hq. cbn [andb].
  by rewrite escape_plain by auto.
Qed.

(** Every name of the list occurs in the message of line 52, in the form
    [repr] gives it; a plain name occurs as it is. *)
Lemma occurs_in_missing_message lacked n :
  n ∈ lacked →
  occurs_in (escape (repr_quote (join ", " lacked)) n) (missing_message lacked)
  ∧ (plain n = true → occurs_in n (missing_message lacked)).
Proof.
  intros Hn. assert (H : occurs_in (escape (repr_quote (join ", " lacked)) n)
                           (missing_message lacked)).
  { unfold missing_message. by apply occurs_in_app_l, occurs_in_repr, occurs_in_join. }
  split; [done|]. intros Hp. rewrite escape_plain in H; [done| |done].
  apply repr_quote_cases.
Qed.

(** ** The classification loop, when no required name shadows a member *)

Lemma routed_empty {B} (inj : value → B) sel (m0 : gmap string B) k :
  routed inj sel ∅ m0 k = m0 !! k.
Proof. unfold routed. by rewrite lookup_empty. Qed.

Lemma routed_insert {B} (inj : value → B) sel (kw : gmap string value)
    (m0 : gmap string B) k v k' :
  kw !! k = None →
  routed inj sel kw (if sel k then <[k:=inj v]> m0 else m0) k'
  = routed inj sel (<[k:=v]> kw) m0 k'.
Proof.
  intros Hk. unfold routed. destruct (decide (k = k')) as [<-|Hne].
  - rewrite Hk, lookup_insert_eq. destruct (sel k); [by rewrite lookup_insert_eq|done].
  - rewrite (lookup_insert_ne kw) by done.
    destruct (sel k); rewrite ?lookup_insert_ne by done; done.
Qed.

Lemma not_loop_member k :
  k ∉ loop_members → k ≠ "attr_names" ∧ k ≠ "options" ∧ k ≠ "required_attrs".
Proof. unfold loop_members. set_solver. Qed.

Section loop.

Variable cls : pipeline_class.
Variable rejected : string → option exn.

(** One iteration: the key is recorded and the item stored in one place. *)
Lemma init_loop_body_step k v acc s names opts :
  (k ∈ required_attrs cls → (k ∉ loop_members) ∧ rejected k = None) →
  __dict__ s !! "attr_names" = Some (ADict names) →
  __dict__ s !! "options" = Some (ADict opts) →
  __dict__ s !! "required_attrs" = None →
  ∃ s1, init_loop_body cls rejected (k, v) acc s = (s1, Ok (acc ∪ {[k]}))
    ∧ __dict__ s1 !! "attr_names"
      = Some (ADict (if to_attr_names k then <[k:=v]> names else names))
    ∧ __dict__ s1 !! "options"
      = Some (ADict (if to_options (required_attrs cls) k
                     then <[k:=v]> opts else opts))
    ∧ __dict__ s1 !! "required_attrs" = None
    ∧ ∀ n, n ≠ "attr_names" → n ≠ "options" →
        __dict__ s1 !! n
        = (if to_attrs (required_attrs cls) k
           then <[k := AVal v]> (__dict__ s) else __dict__ s) !! n.
Proof.
  intros Hk Han Hop Hreq.
  unfold init_loop_body, to_attr_names, to_attrs, to_options.
  destruct (endswith k "_attr") eqn:Hsuf.
  - unfold_M. unfold setitem_self. rewrite Han. cbn.
    eexists. split; [reflexivity|]. cbn.
    rewrite lookup_insert_eq, !lookup_insert_ne by done.
    repeat split; try done. intros n Hn1 Hn2. by rewrite lookup_insert_ne.
  - unfold_M. unfold in_required_attrs. rewrite Hreq. cbn.
    destruct (decide (k ∈ required_attrs cls)) as [Hin|Hout].
    + rewrite bool_decide_eq_true_2 by done. cbn.
      destruct (Hk Hin) as [Hm Hrej]. rewrite Hrej.
      destruct (not_loop_member k Hm) as (? & ? & ?).
      eexists. split; [reflexivity|]. cbn.
      by rewrite !lookup_insert_ne by done.
    + rewrite bool_decide_eq_false_2 by done. cbn.
      unfold setitem_self. rewrite Hop. cbn.
      eexists. split; [reflexivity|]. cbn.
      rewrite lookup_insert_eq, !lookup_insert_ne by done.
      repeat split; try done. intros n Hn1 Hn2. by rewrite lookup_insert_ne.
Qed.

(** The loop never raises; it records every key and routes every item. *)
Lemma for_each_init_loop_body (l : list (string * value)) s acc names opts :
  NoDup l.*1 →
  required_attrs cls ## loop_members →
  bindable rejected (required_attrs cls) →
  __dict__ s !! "attr_names" = Some (ADict names) →
  __dict__ s !! "options" = Some (ADict opts) →
  __dict__ s !! "required_attrs" = None →
  ∃ s' names' opts',
    for_each l (init_loop_body cls rejected) acc s = (s', Ok (acc ∪ list_to_set l.*1))
    ∧ __dict__ s' !! "attr_names" = Some (ADict names')
    ∧ __dict__ s' !! "options" = Some (ADict opts')
    ∧ __dict__ s' !! "required_attrs" = None
    ∧ (∀ k, names' !! k = routed id to_attr_names (list_to_map l) names k)
    ∧ (∀ k, opts' !! k
            = routed id (to_options (required_attrs cls)) (list_to_map l) opts k)
    ∧ (∀ k, k ≠ "attr_names" → k ≠ "options" →
            __dict__ s' !! k
            = routed AVal (to_attrs (required_attrs cls)) (list_to_map l)
                (__dict__ s) k).
Proof.
  intros Hnd Hns Hbind. revert s acc names opts Hnd.
  induction l as [|[k v] l IH]; intros s acc names opts Hnd Han Hop Hreq.
  - exists s, names, opts. simpl. unfold ret. rewrite union_empty_r_L.
    repeat split; try done; intros; by rewrite routed_empty.
  - apply NoDup_cons in Hnd as [Hk Hnd].
    assert (Hkm : k ∈ required_attrs cls → (k ∉ loop_members) ∧ rejected k = None).
    { intros Hin. split; [|by apply Hbind]. intros Hm. by apply (Hns k). }
    destruct (init_loop_body_step k v acc s names opts Hkm Han Hop Hreq)
      as (s1 & Hstep & Han1 & Hop1 & Hreq1 & Hat1).
    destruct (IH s1 (acc ∪ {[k]}) _ _ Hnd Han1 Hop1 Hreq1)
      as (s' & names' & opts' & Hrun & Han' & Hop' & Hreq' & Hn & Ho & Hat').
    exists s', names', opts'.
    assert (Hfresh : (list_to_map l : gmap string value) !! k = None)
      by by apply not_elem_of_list_to_map_1.
    split; [|repeat split; try done].
    + cbn [for_each]. unfold mbind, M_bind, bind at 1. rewrite Hstep, Hrun.
      do 2 f_equal. cbn [fmap list_fmap fst list_to_set]. by rewrite (assoc_L (∪)).
    + intros k'. rewrite Hn. cbn [list_to_map foldr].
      by rewrite <- (routed_insert id).
    + intros k'. rewrite Ho. cbn [list_to_map foldr].
      by rewrite <- (routed_insert id).
    + intros k' H1 H2. rewrite Hat' by done. cbn [list_to_map foldr].
      rewrite <- (routed_insert AVal) by done.
      unfold routed. destruct (list_to_map l !! k'); [|by apply Hat1].
      destruct (to_attrs _ k'); [done|]. by apply Hat1.
Qed.

End loop.

(** ** [__init__] as a whole *)

Lemma before_loop_attr_names s :
  __dict__ (before_loop s) !! "attr_names" = Some (ADict ∅).
Proof. unfold before_loop. cbn. by rewrite lookup_insert_ne, lookup_insert_eq. Qed.

Lemma before_loop_options s :
  __dict__ (before_loop s) !! "options" = Some (ADict ∅).
Proof. unfold before_loop. cbn. by rewrite lookup_insert_eq. Qed.

(** Lines 28-35 rebind five names and no other. *)
Lemma before_loop_other s n :
  n ≠ "__name__" → n ≠ "__module__" → n ≠ "__doc__" →
  n ≠ "attr_names" → n ≠ "options" →
  __dict__ (before_loop s) !! n = __dict__ s !! n.
Proof. intros. unfold before_loop. cbn. by rewrite !lookup_insert_ne. Qed.

(** No name is lacking exactly when every required name is a keyword. *)
Lemma lacked_empty_iff (required keywords : gset string) :
  required ∖ keywords = ∅ ↔ required ⊆ keywords.
Proof.
  split.
  - intros He n Hn. destruct (decide (n ∈ keywords)) as [|Hno]; [done|].
    assert (n ∈ required ∖ keywords) as Hin by by apply elem_of_difference.
    rewrite He in Hin. by apply not_elem_of_empty in Hin.
  - intros Hsub. apply leibniz_equiv. intros n.
    rewrite elem_of_difference. split; [|by intros ?%not_elem_of_empty].
    intros [Hn Hno]. by apply Hsub in Hn.
Qed.


Lemma passed_elem_of kwargs name v :
  NoDup kwargs.*1 → (name, v) ∈ kwargs ↔ passed kwargs name = Some v.
Proof. intros Hnd. unfold passed. by rewrite elem_of_list_to_map. Qed.

Lemma bindable_own_attributes rejected :
  bindable rejected own_attributes →
  rejected "__name__" = None ∧ rejected "__module__" = None
  ∧ rejected "__doc__" = None ∧ rejected "attr_names" = None
  ∧ rejected "options" = None.
Proof.
  intros Hb. repeat split; apply Hb; unfold own_attributes; set_solver.
Qed.

Section init.

Variable cls : pipeline_class.
Variable rejected : string → option exn.
Variable cached_property_init : M unit.
Variable iter_set : gset string → list string.

(** Once line 27 has returned, and when no required name shadows a member
    the loop reads, [__init__] runs the loop to its end, then either raises
    the error of line 52 or calls [self.prepare()]. *)
Lemma init_unfold (kwargs : list (string * value)) s0 s1 :
  call_base_init cls cached_property_init s0 = (s1, Ok tt) →
  NoDup kwargs.*1 →
  required_attrs cls ## loop_members →
  bindable rejected own_attributes →
  bindable rejected (required_attrs cls) →
  __dict__ s1 !! "required_attrs" = None →
  __init__ cls rejected cached_property_init iter_set kwargs s0 =
    (let lacked_attrs := required_attrs cls ∖ keys kwargs in
     if bool_decide (lacked_attrs ≠ ∅)
     then (after_loop cls rejected kwargs s1,
           Raise (TypeError (missing_message (iter_set lacked_attrs))))
     else call_prepare cls (after_loop cls rejected kwargs s1)).
Proof.
  intros Hbase Hnd Hns Hown Hbind Hreq. unfold after_loop.
  destruct (bindable_own_attributes _ Hown) as (R1 & R2 & R3 & R4 & R5).
  destruct (for_each_init_loop_body cls rejected kwargs (before_loop s1) ∅ ∅ ∅
              Hnd Hns Hbind)
    as (s' & names' & opts' & Hrun & _ & _ & Hreq' & _).
  { apply before_loop_attr_names. }
  { apply before_loop_options. }
  { by rewrite before_loop_other. }
  rewrite union_empty_l_L in Hrun. fold (keys kwargs) in Hrun.
  unfold __init__. unfold mbind, M_bind. unfold bind at 1. rewrite Hbase.
  unfold_M. rewrite R1, R2, R3, R4, R5. cbn. fold (before_loop s1).
  rewrite Hrun. cbn.
  unfold required_attrs_minus. rewrite Hreq'. cbn.
  by destruct (bool_decide _).
Qed.

(** What the loop leaves when no required name shadows a member it reads. *)
Lemma after_loop_classified (kwargs : list (string * value)) s1 :
  NoDup kwargs.*1 →
  required_attrs cls ## loop_members →
  bindable rejected (required_attrs cls) →
  __dict__ s1 !! "required_attrs" = None →
  classified (required_attrs cls) kwargs (before_loop s1)
    (after_loop cls rejected kwargs s1)
  ∧ ∀ n, n ∉ required_attrs cls → n ≠ "attr_names" → n ≠ "options" →
         __dict__ (after_loop cls rejected kwargs s1) !! n
         = __dict__ (before_loop s1) !! n.
Proof.
  intros Hnd Hns Hbind Hreq. unfold after_loop.
  destruct (for_each_init_loop_body cls rejected kwargs (before_loop s1) ∅ ∅ ∅
              Hnd Hns Hbind)
    as (s' & names' & opts' & Hrun & Han & Hop & Hreq' & Hn & Ho & Hat).
  { apply before_loop_attr_names. }
  { apply before_loop_options. }
  { by rewrite before_loop_other. }
  rewrite Hrun. cbn [fst]. split.
  - exists names', opts'. split; [done|]. split; [done|].
    intros name. unfold passed, untouched. rewrite Hn, Ho.
    unfold routed, to_attr_names, to_options.
    destruct (list_to_map kwargs !! name) as [v|] eqn:Hkw.
    + destruct (endswith name "_attr") eqn:Hsuf; cbn.
      * rewrite lookup_empty. repeat split; try done.
        intros H1 H2. rewrite Hat by done. unfold routed, to_attrs.
        by rewrite Hkw, Hsuf.
      * destruct (decide (name ∈ required_attrs cls)) as [Hin|Hout].
        -- rewrite bool_decide_eq_true_2 by done. cbn. rewrite !lookup_empty.
           repeat split; try done.
           destruct (not_loop_member name) as (? & ? & ?);
             [intros Hm; by apply (Hns name)|].
           rewrite Hat by done. unfold routed, to_attrs.
           by rewrite Hkw, Hsuf, bool_decide_eq_true_2.
        -- rewrite bool_decide_eq_false_2 by done. cbn. rewrite lookup_empty.
           repeat split; try done.
           intros H1 H2. rewrite Hat by done. unfold routed, to_attrs.
           by rewrite Hkw, Hsuf, bool_decide_eq_false_2.
    + rewrite !lookup_empty. repeat split; try done.
      intros H1 H2. rewrite Hat by done. unfold routed. by rewrite Hkw.
  - intros n Hn' H1 H2. rewrite Hat by done. unfold routed, to_attrs.
    rewrite bool_decide_eq_false_2, andb_false_r by done.
    by destruct (list_to_map kwargs !! n).
Qed.

End init.

(** The loop consults the class for [required_attrs] only. *)
Lemma after_loop_subclass required prepare prepare' rejected kwargs s :
  after_loop (subclass required prepare) rejected kwargs s
  = after_loop (subclass required prepare') rejected kwargs s.
Proof. reflexivity. Qed.

Lemma call_base_init_subclass required prepare cached_property_init :
  call_base_init (subclass required prepare) cached_property_init object_new
  = cached_property_init object_new.
Proof. reflexivity. Qed.

Lemma loop_members_subseteq (required : gset string) :
  required ## init_members → required ## loop_members.
Proof.
  intros Hns n Hn Hm. apply (Hns n Hn). unfold init_members, loop_members in *.
  set_solver.
Qed.

Lemma not_init_member (required : gset string) :
  required ## init_members → "prepare" ∉ required.
Proof.
  intros Hns Hin. apply (Hns "prepare" Hin). unfold init_members. set_solver.
Qed.


(** With nothing missing and no required name shadowing a member, the
    constructor of a subclass ends by running the class's [prepare] on the
    instance the loop left. *)
Lemma construct_hook_ok required prepare rejected cached_property_init
    iter_set kwargs s1 :
  base_classes_cooperate rejected cached_property_init required s1 →
  NoDup kwargs.*1 →
  required ## init_members →
  required ⊆ keys kwargs →
  construct (subclass required prepare) rejected cached_property_init iter_set
    kwargs
  = prepare (after_loop (subclass required prepare) rejected kwargs s1).
Proof.
  intros (Hbase & Hreq & Hprep & Hown & Hbind) Hnd Hns Hsub. unfold construct.
  pose proof (loop_members_subseteq _ Hns) as Hns'.
  rewrite (init_unfold _ _ _ _ _ _ s1); [|done..]. cbn zeta.
  apply lacked_empty_iff in Hsub. cbn [required_attrs subclass].
  rewrite Hsub, bool_decide_eq_false_2 by (by intros []).
  unfold call_prepare.
  destruct (after_loop_classified (subclass required prepare) rejected kwargs
              s1 Hnd Hns' Hbind Hreq) as [_ Hother].
  rewrite (Hother "prepare"), before_loop_other, Hprep; try done.
  by apply not_init_member.
Qed.

Lemma construct_base_ok required rejected cached_property_init iter_set
    kwargs s1 :
  base_classes_cooperate rejected cached_property_init required s1 →
  NoDup kwargs.*1 →
  required ## init_members →
  required ⊆ keys kwargs →
  construct (subclass required prepare_base) rejected cached_property_init
    iter_set kwargs
  = (after_loop (subclass required prepare_base) rejected kwargs s1, Ok tt).
Proof. intros. by rewrite (construct_hook_ok _ _ _ _ _ _ s1). Qed.

(** With a required name missing and none shadowing a member the loop reads,
    the constructor raises the error of line 52 on the instance the loop
    left, whatever [prepare] is. *)
Lemma construct_raises required prepare rejected cached_property_init iter_set
    kwargs s1 :
  base_classes_cooperate rejected cached_property_init required s1 →
  NoDup kwargs.*1 →
  required ## loop_members →
  ¬ (required ⊆ keys kwargs) →
  construct (subclass required prepare) rejected cached_property_init iter_set
    kwargs
  = (after_loop (subclass required prepare_base) rejected kwargs s1,
     Raise (TypeError (missing_message (iter_set (required ∖ keys kwargs))))).
Proof.
  intros (Hbase & Hreq & _ & Hown & Hbind) Hnd Hns Hmiss. unfold construct.
  rewrite (init_unfold _ _ _ _ _ _ s1); [|done..]. cbn zeta.
  cbn [required_attrs subclass].
  by rewrite bool_decide_eq_true_2 by (by rewrite lacked_empty_iff).
Qed.

(** With the base-class [prepare] and no required name shadowing a member
    the loop reads, the instance is the one the loop left, whether the
    constructor raised or not. *)
Lemma construct_base_state required rejected cached_property_init iter_set
    kwargs s1 :
  base_classes_cooperate rejected cached_property_init required s1 →
  NoDup kwargs.*1 →
  required ## loop_members →
  (construct (subclass required prepare_base) rejected cached_property_init
     iter_set kwargs).1
  = after_loop (subclass required prepare_base) rejected kwargs s1.
Proof.
  intros (Hbase & Hreq & Hprep & Hown & Hbind) Hnd Hns. unfold construct.
  rewrite (init_unfold _ _ _ _ _ _ s1); [|done..]. cbn zeta.
  destruct (bool_decide _); [done|]. unfold call_prepare.
  destruct (__dict__ (after_loop _ _ kwargs s1) !! "prepare"); reflexivity.
Qed.

Lemma rejected_demo_None n :
  n ≠ "__class__" → n ≠ "__dict__" → rejected_demo n = None.
Proof.
  intros H1 H2. unfold rejected_demo.
  apply String.eqb_neq in H1, H2. by rewrite H1, H2.
Qed.

(** The example base classes cooperate with every class that requires
    neither [__class__] nor [__dict__]. *)
Lemma base_classes_demo_cooperate (required : gset string) :
  "__class__" ∉ required → "__dict__" ∉ required →
  base_classes_cooperate rejected_demo base_init_demo required
    instance_after_base_init.
Proof.
  intros H1 H2. split; [by vm_compute|]. split; [by vm_compute|].
  split; [by vm_compute|]. split.
  - intros n Hn. apply rejected_demo_None; intros ->; revert Hn;
      unfold own_attributes; set_solver.
  - intros n Hn. apply rejected_demo_None; by intros ->.
Qed.

Lemma iter_demo_iteration : set_iteration iter_demo.
Proof. intros X. unfold iter_demo. apply reverse_Permutation. Qed.
(** ** The loop in general: what a successful run implies *)

Lemma bind_Ok_inv {A B} (m : M A) (k : A → M B) s s' b :
  bind m k s = (s', Ok b) → ∃ s1 a, m s = (s1, Ok a) ∧ k a s1 = (s', Ok b).
Proof.
  unfold bind. destruct (m s) as [s1 [a|e]]; [|done]. intros H. by exists s1, a.
Qed.

Lemma for_each_cons_Ok_inv {A B} (x : A) l (body : A → B → M B) acc s s' acc' :
  for_each (x :: l) body acc s = (s', Ok acc') →
  ∃ s1 acc1, body x acc s = (s1, Ok acc1) ∧ for_each l body acc1 s1 = (s', Ok acc').
Proof. cbn [for_each]. apply bind_Ok_inv. Qed.

Section general.

Variable cls : pipeline_class.
Variable rejected : string → option exn.

(** An iteration leaves the instance as it is or rebinds one attribute. *)
Lemma init_loop_body_shape item acc s :
  (init_loop_body cls rejected item acc s).1 = s
  ∨ ∃ x a, __dict__ (init_loop_body cls rejected item acc s).1 = <[x := a]> (__dict__ s).
Proof.
  destruct item as [k v]. unfold init_loop_body.
  unfold_M. unfold setitem_self, in_required_attrs.
  destruct (rejected k); destruct (endswith k "_attr").
  1, 3: destruct (__dict__ s !! "attr_names") as [[x|d]|]; cbn; eauto.
  all: destruct (__dict__ s !! "required_attrs") as [[[| | |str]|d]|]; cbn; eauto.
  all: try (destruct (str_contains k str); cbn; eauto).
  all: try (destruct (bool_decide _); cbn; eauto).
  all: destruct (__dict__ s !! "options") as [[x|d']|]; cbn; eauto.
Qed.

(** Neither an iteration nor the loop unbinds an attribute. *)
Lemma init_loop_body_bound item acc s n :
  is_Some (__dict__ s !! n) →
  is_Some (__dict__ (init_loop_body cls rejected item acc s).1 !! n).
Proof.
  intros Hn. destruct (init_loop_body_shape item acc s) as [->|(x & a & ->)];
    [done|].
  rewrite lookup_insert_is_Some. destruct (decide (x = n)); auto.
Qed.

Lemma for_each_bound l acc s n :
  is_Some (__dict__ s !! n) →
  is_Some (__dict__ (for_each l (init_loop_body cls rejected) acc s).1 !! n).
Proof.
  revert acc s. induction l as [|x l IH]; intros acc s Hn; [done|].
  cbn [for_each]. unfold mbind, M_bind, bind.
  pose proof (init_loop_body_bound x acc s n Hn) as H1.
  destruct (init_loop_body cls rejected x acc s) as [s1 [acc1|e]]; [|done].
  by apply IH.
Qed.

(** A successful iteration that leaves [required_attrs] unshadowed did one of
    three things. *)
Lemma init_loop_body_Ok_inv k v acc s s1 acc1 :
  init_loop_body cls rejected (k, v) acc s = (s1, Ok acc1) →
  __dict__ s1 !! "required_attrs" = None →
  __dict__ s !! "required_attrs" = None
  ∧ (acc1 = acc ∪ {[k]})
  ∧ ((endswith k "_attr" = true
      ∧ ∃ d, __dict__ s !! "attr_names" = Some (ADict d)
             ∧ __dict__ s1 = <["attr_names" := ADict (<[k:=v]> d)]> (__dict__ s))
     ∨ (endswith k "_attr" = false ∧ k ∈ required_attrs cls
        ∧ __dict__ s1 = <[k := AVal v]> (__dict__ s))
     ∨ (endswith k "_attr" = false ∧ (k ∉ required_attrs cls)
        ∧ ∃ d, __dict__ s !! "options" = Some (ADict d)
               ∧ __dict__ s1 = <["options" := ADict (<[k:=v]> d)]> (__dict__ s))).
Proof.
  intros Hrun Hfree.
  assert (Hreq : __dict__ s !! "required_attrs" = None).
  { destruct (__dict__ s !! "required_attrs") eqn:E; [|done].
    pose proof (init_loop_body_bound (k, v) acc s "required_attrs") as Hb.
    rewrite Hrun, E in Hb. cbn in Hb. rewrite Hfree in Hb.
    by destruct Hb as [? ?]; [eauto|]. }
  split; [done|]. revert Hrun.
  unfold init_loop_body. unfold_M. unfold setitem_self, in_required_attrs.
  destruct (endswith k "_attr").
  - destruct (__dict__ s !! "attr_names") as [[x|d]|]; cbn; try done.
    intros [= <- <-]. split; [done|]. left. eauto.
  - rewrite Hreq. cbn. destruct (decide (k ∈ required_attrs cls)) as [Hin|Hout].
    + rewrite bool_decide_eq_true_2 by done. cbn.
      destruct (rejected k); [done|].
      intros [= <- <-]. split; [done|]. right; left. eauto.
    + rewrite bool_decide_eq_false_2 by done.
      destruct (__dict__ s !! "options") as [[x|d]|]; cbn; try done.
      intros [= <- <-]. split; [done|]. right; right. eauto.
Qed.

Lemma for_each_Ok_step_free x l acc s s' acc' s1 acc1 :
  init_loop_body cls rejected x acc s = (s1, Ok acc1) →
  for_each l (init_loop_body cls rejected) acc1 s1 = (s', Ok acc') →
  __dict__ s' !! "required_attrs" = None →
  __dict__ s1 !! "required_attrs" = None.
Proof.
  intros _ Hrun Hfree. destruct (__dict__ s1 !! "required_attrs") eqn:E; [|done].
  pose proof (for_each_bound l acc1 s1 "required_attrs") as Hb.
  rewrite Hrun, E in Hb. cbn in Hb. rewrite Hfree in Hb.
  by destruct Hb as [? ?]; [eauto|].
Qed.

Section field.

Variables (name : string) (v : value).
Hypothesis name_required : name ∈ required_attrs cls.
Hypothesis name_no_suffix : endswith name "_attr" = false.

(** The two dicts never get an entry under a required name without the
    suffix. *)
Lemma for_each_no_entry l acc s s' acc' :
  for_each l (init_loop_body cls rejected) acc s = (s', Ok acc') →
  __dict__ s' !! "required_attrs" = None →
  no_entry s "options" name ∧ no_entry s "attr_names" name →
  no_entry s' "options" name ∧ no_entry s' "attr_names" name.
Proof.
  revert acc s. induction l as [|[k w] l IH]; intros acc s Hrun Hfree HJ.
  - cbn in Hrun. unfold ret in Hrun. by simplify_eq.
  - apply for_each_cons_Ok_inv in Hrun as (s1 & acc1 & Hstep & Hrun).
    pose proof (for_each_Ok_step_free _ _ _ _ _ _ _ _ Hstep Hrun Hfree) as Hfree1.
    apply (IH _ _ Hrun Hfree). clear IH Hrun Hfree.
    destruct HJ as [HJo HJa].
    apply init_loop_body_Ok_inv in Hstep as (_ & _ & Hcase); [|done].
    unfold no_entry in *.
    destruct Hcase as [(Hsuf & d & Hd & ->)|[(Hsuf & Hin & ->)|(Hsuf & Hout & d & Hd & ->)]].
    + split; intros d'.
      * rewrite lookup_insert_ne by done. apply HJo.
      * rewrite lookup_insert_eq. intros [= <-].
        rewrite lookup_insert_ne by congruence. by apply HJa.
    + split; intros d'.
      * destruct (decide (k = "options")) as [->|Hk];
          [by rewrite lookup_insert_eq|rewrite lookup_insert_ne by done; apply HJo].
      * destruct (decide (k = "attr_names")) as [->|Hk];
          [by rewrite lookup_insert_eq|rewrite lookup_insert_ne by done; apply HJa].
    + split; intros d'.
      * rewrite lookup_insert_eq. intros [= <-].
        rewrite lookup_insert_ne by congruence. by apply HJo.
      * rewrite lookup_insert_ne by done. apply HJa.
Qed.

(** Once set, the attribute keeps its value through a successful run over
    items with other keys. *)
Lemma for_each_keeps_field l acc s s' acc' :
  for_each l (init_loop_body cls rejected) acc s = (s', Ok acc') →
  __dict__ s' !! "required_attrs" = None →
  name ∉ l.*1 →
  __dict__ s !! name = Some (AVal v) →
  __dict__ s' !! name = Some (AVal v).
Proof.
  revert acc s. induction l as [|[k w] l IH]; intros acc s Hrun Hfree Hnot Hs.
  - cbn in Hrun. unfold ret in Hrun. by simplify_eq.
  - apply for_each_cons_Ok_inv in Hrun as (s1 & acc1 & Hstep & Hrun).
    pose proof (for_each_Ok_step_free _ _ _ _ _ _ _ _ Hstep Hrun Hfree) as Hfree1.
    cbn in Hnot. apply not_elem_of_cons in Hnot as [Hne Hnot].
    apply (IH _ _ Hrun Hfree Hnot). clear IH Hrun Hfree.
    apply init_loop_body_Ok_inv in Hstep as (_ & _ & Hcase); [|done].
    destruct Hcase as [(Hsuf & d & Hd & ->)|[(Hsuf & Hin & ->)|(Hsuf & Hout & d & Hd & ->)]].
    + rewrite lookup_insert_ne; [done|]. intros <-. congruence.
    + by rewrite lookup_insert_ne.
    + rewrite lookup_insert_ne; [done|]. intros <-. congruence.
Qed.

(** A successful run binds the attribute to the value passed and leaves no
    entry for it in either dict. *)
Lemma for_each_sets_field l acc s s' acc' :
  for_each l (init_loop_body cls rejected) acc s = (s', Ok acc') →
  __dict__ s' !! "required_attrs" = None →
  NoDup l.*1 →
  (name, v) ∈ l →
  no_entry s "options" name ∧ no_entry s "attr_names" name →
  __dict__ s' !! name = Some (AVal v)
  ∧ no_entry s' "options" name ∧ no_entry s' "attr_names" name.
Proof.
  intros Hrun Hfree Hnd Hin HJ.
  split; [|by apply (for_each_no_entry l acc s s' acc')].
  clear HJ. revert acc s Hrun Hnd Hin.
  induction l as [|[k w] l IH]; intros acc s Hrun Hnd Hin.
  - by apply elem_of_nil in Hin.
  - apply for_each_cons_Ok_inv in Hrun as (s1 & acc1 & Hstep & Hrun).
    pose proof (for_each_Ok_step_free _ _ _ _ _ _ _ _ Hstep Hrun Hfree) as Hfree1.
    cbn in Hnd. apply NoDup_cons in Hnd as [Hk Hnd].
    apply elem_of_cons in Hin as [[= <- <-]|Hin].
    + apply (for_each_keeps_field l acc1 s1 s' acc' Hrun Hfree Hk).
      apply init_loop_body_Ok_inv in Hstep as (_ & _ & Hcase); [|done].
      destruct Hcase as [(Hsuf & _)|[(_ & _ & ->)|(_ & Hout & _)]];
        [congruence|by rewrite lookup_insert_eq|done].
    + by apply (IH acc1 s1).
Qed.

End field.

End general.

(** A successful [__init__] went through line 27, the loop, line 50 and the
    call of the class's [prepare]. *)
Lemma init_Ok_inv cls rejected cached_property_init iter_set kwargs s0 self :
  __init__ cls rejected cached_property_init iter_set kwargs s0 = (self, Ok tt) →
  ∃ s1 s2 assigned,
    call_base_init cls cached_property_init s0 = (s1, Ok tt)
    ∧ for_each kwargs (init_loop_body cls rejected) ∅ (before_loop s1)
      = (s2, Ok assigned)
    ∧ __dict__ s2 !! "required_attrs" = None
    ∧ __dict__ s2 !! "prepare" = None
    ∧ prepare cls s2 = (self, Ok tt).
Proof.
  unfold __init__. unfold mbind, M_bind.
  intros (s1 & [] & Hbase & H)%bind_Ok_inv.
  unfold_M.
  destruct (rejected "__name__"); [done|].
  destruct (rejected "__module__"); [done|].
  destruct (rejected "__doc__"); [done|].
  destruct (rejected "attr_names"); [done|].
  destruct (rejected "options"); [done|].
  cbn in H. fold (before_loop s1) in H.
  destruct (for_each kwargs (init_loop_body cls rejected) ∅ (before_loop s1))
    as [s2 [assigned|e]] eqn:Hrun; [|done].
  unfold required_attrs_minus in H.
  destruct (__dict__ s2 !! "required_attrs") eqn:Hreq; [done|]. cbn in H.
  destruct (bool_decide _); [done|]. cbn in H.
  unfold call_prepare in H.
  destruct (__dict__ s2 !! "prepare") eqn:Hprep; [done|].
  by exists s1, s2, assigned.
Qed.
(** ** Claims about construction *)




(** C2, counterexamples.  A required name that is also a member the loop or
    line 50 reads: with another required name missing, construction raises
    an error that is not the one of line 52 and names nothing. *)
Lemma init_shadowed_error_counterexample :
  ¬ reports_missing_claim {["options"; "parser"]} rejected_demo base_init_demo iter_demo
      [("options", VInt 1); ("zebra", VInt 2)]
  ∧ ¬ reports_missing_claim {["attr_names"; "parser"]} rejected_demo base_init_demo iter_demo
        [("attr_names", VInt 1); ("x_attr", VInt 2)]
  ∧ ¬ reports_missing_claim {["required_attrs"; "parser"]} rejected_demo base_init_demo iter_demo
        [("required_attrs", VInt 1)].
Proof.
  repeat split; intros Hclaim; destruct Hclaim as (self & lacked & Hc & _);
    try by_computation; vm_compute in Hc; discriminate.
Qed.

(** C2, amended.  For a concrete subclass, with any [prepare], none of whose
    required names is [options], [attr_names] or [required_attrs], and with
    cooperating base classes: when one or more names of [required_attrs] are
    missing from the keyword arguments, construction raises the [TypeError]
    of line 52.  Its message is [required attrs ]
    followed by [repr] of the missing names joined with a comma and a space:
    all of them, each once, no other name, in whatever order the set is
    visited.  Every missing name occurs in the message, in the form [repr]
    gives it, which for a name of plain characters is the name itself. *)
Theorem init_reports_all_missing
    (required_attrs : gset string) (prepare : M unit)
    (rejected : string → option exn) (cached_property_init : M unit)
    (iter_set : gset string → list string)
    (kwargs : list (string * value)) (s1 : PipelineProperty) :
  base_classes_cooperate rejected cached_property_init required_attrs s1 →
  set_iteration iter_set →
  NoDup kwargs.*1 →
  required_attrs ## loop_members →
  ¬ (required_attrs ⊆ keys kwargs) →
  ∃ self lacked,
    construct (subclass required_attrs prepare) rejected cached_property_init iter_set
      kwargs
    = (self, Raise (TypeError ("required attrs " +:+ repr (join ", " lacked))))
    ∧ NoDup lacked
    ∧ (∀ n, n ∈ lacked ↔ n ∈ required_attrs ∧ n ∉ keys kwargs)
    ∧ (∀ n, n ∈ lacked →
          occurs_in (escape (repr_quote (join ", " lacked)) n)
            ("required attrs " +:+ repr (join ", " lacked)))
    ∧ (∀ n, n ∈ lacked → plain n = true →
          occurs_in n ("required attrs " +:+ repr (join ", " lacked))).
Proof.
  intros Hbase Hiter Hnd Hns Hmiss.
  set (lacked := iter_set (required_attrs ∖ keys kwargs)).
  assert (Hperm : lacked ≡ₚ elements (required_attrs ∖ keys kwargs))
    by apply Hiter.
  eexists _, lacked.
  split; [by apply (construct_raises _ _ _ _ _ _ s1)|].
  split; [rewrite Hperm; apply NoDup_elements|].
  split; [intros n; by rewrite Hperm, elem_of_elements, elem_of_difference|].
  split; intros n Hn; destruct (occurs_in_missing_message lacked n Hn) as [H1 H2];
    [exact H1|exact H2].
Qed.

Lemma init_reports_all_missing_witness :
  ∃ self lacked,
    construct (subclass {["url"; "parser"; "name"]} prepare_example)
      rejected_demo base_init_demo iter_demo kwargs_demo
    = (self, Raise (TypeError ("required attrs " +:+ repr (join ", " lacked))))
    ∧ NoDup lacked
    ∧ (∀ n, n ∈ lacked ↔ n ∈ ({["url"; "parser"; "name"]} : gset string)
                          ∧ n ∉ keys kwargs_demo)
    ∧ (∀ n, n ∈ lacked →
          occurs_in (escape (repr_quote (join ", " lacked)) n)
            ("required attrs " +:+ repr (join ", " lacked)))
    ∧ (∀ n, n ∈ lacked → plain n = true →
          occurs_in n ("required attrs " +:+ repr (join ", " lacked))).
Proof.
  apply (init_reports_all_missing {["url"; "parser"; "name"]} prepare_example
           rejected_demo base_init_demo iter_demo kwargs_demo instance_after_base_init).
  - apply base_classes_demo_cooperate; by_computation.
  - exact iter_demo_iteration.
  - by_computation.
  - by_computation.
  - by_computation.
Defined.

(** C8, counterexample.  With [required_attrs = {"url", "parser"}] and the
    keyword arguments [raw_html_attr], [url] and [use_proxy], the constructor
    raises for the missing [parser] only after it has set the attribute [url]
    and filled [attr_names] and [options]. *)
Lemma init_not_atomic_counterexample :
  ¬ atomic_on_error_claim {["url"; "parser"]} rejected_demo base_init_demo iter_demo kwargs_demo.
Proof.
  intros Hclaim.
  assert (Hmiss : ¬ (({["url"; "parser"]} : gset string) ⊆ keys kwargs_demo))
    by by_computation.
  destruct (Hclaim Hmiss) as (_ & _ & Hfield).
  assert (Hurl : __dict__ (construct (subclass {["url"; "parser"]} prepare_base)
                             rejected_demo base_init_demo iter_demo kwargs_demo).1 !! "url"
                 = None).
  { apply Hfield, elem_of_union_l, elem_of_singleton. reflexivity. }
  vm_compute in Hurl. discriminate.
Qed.

(** C8, amended.  For a concrete subclass none of whose required names is
    [options], [attr_names] or [required_attrs], and with cooperating base
    classes: when a required attribute is missing, the error of line 52 is
    raised after the loop over the keyword arguments.  The instance under construction then holds every supplied
    keyword argument in its destination, and the outcome is the same
    whatever the [prepare] hook is, since the hook is not reached. *)
Theorem init_raises_after_classifying
    (required_attrs : gset string) (rejected : string → option exn)
    (cached_property_init : M unit)
    (iter_set : gset string → list string) (kwargs : list (string * value))
    (s1 : PipelineProperty) :
  base_classes_cooperate rejected cached_property_init required_attrs s1 →
  NoDup kwargs.*1 →
  required_attrs ## loop_members →
  ¬ (required_attrs ⊆ keys kwargs) →
  ∃ self,
    (∀ prepare,
       construct (subclass required_attrs prepare) rejected cached_property_init iter_set
         kwargs
       = (self,
          Raise (TypeError
                   ("required attrs " +:+
                    repr (join ", " (iter_set (required_attrs ∖ keys kwargs)))))))
    ∧ classified required_attrs kwargs (before_loop s1) self.
Proof.
  intros Hbase Hnd Hns Hmiss. eexists. split.
  - intros prepare. by apply (construct_raises _ _ _ _ _ _ s1).
  - destruct Hbase as (_ & Hreq & _ & _ & Hbind).
    apply (after_loop_classified (subclass required_attrs prepare_base) rejected
             kwargs s1 Hnd Hns Hbind Hreq).
Qed.

Lemma init_raises_after_classifying_witness :
  ∃ self,
    (∀ prepare,
       construct (subclass {["url"; "parser"]} prepare) rejected_demo base_init_demo iter_demo
         kwargs_demo
       = (self,
          Raise (TypeError
                   ("required attrs " +:+
                    repr (join ", " (iter_demo ({["url"; "parser"]} ∖ keys kwargs_demo)))))))
    ∧ classified {["url"; "parser"]} kwargs_demo
        (before_loop instance_after_base_init) self.
Proof.
  apply (init_raises_after_classifying {["url"; "parser"]} rejected_demo base_init_demo iter_demo
           kwargs_demo instance_after_base_init).
  - apply base_classes_demo_cooperate; by_computation.
  - by_computation.
  - by_computation.
  - by_computation.
Defined.

(** C9, counterexamples.  First, with [required_attrs = {"raw_html_attr"}]
    and the single keyword argument [raw_html_attr], construction succeeds,
    the value is in [attr_names] and no instance attribute of that name
    exists.  Second, with [required_attrs = {"use_proxy"}], the [prepare] of
    the docstring and the keyword argument [use_proxy=False], construction
    succeeds and [options] holds that value under [use_proxy]: the hook put
    it there. *)
Lemma required_suffix_counterexample :
  ¬ required_kwargs_are_fields_claim (subclass {["raw_html_attr"]} prepare_base)
      rejected_demo base_init_demo iter_demo kwargs_suffix_only
  ∧ ¬ required_kwargs_are_fields_claim (subclass {["use_proxy"]} prepare_example)
        rejected_demo base_init_demo iter_demo [("use_proxy", VBool false)].
Proof.
  split; intros Hclaim.
  - destruct (Hclaim (construct (subclass {["raw_html_attr"]} prepare_base)
                        rejected_demo base_init_demo iter_demo kwargs_suffix_only).1
                "raw_html_attr" (VStr "raw_html")) as (Hfield & _).
    + vm_compute. reflexivity.
    + by_computation.
    + vm_compute. reflexivity.
    + vm_compute in Hfield. discriminate.
  - destruct (Hclaim (construct (subclass {["use_proxy"]} prepare_example)
                        rejected_demo base_init_demo iter_demo [("use_proxy", VBool false)]).1
                "use_proxy" (VBool false)) as (_ & Hopt & _).
    + vm_compute. reflexivity.
    + by_computation.
    + vm_compute. reflexivity.
    + apply (Hopt {["use_proxy" := VBool false]}); vm_compute; reflexivity.
Qed.

(** C9, amended.  For every successful construction, each keyword argument
    whose name is in [required_attrs] and does not end in [_attr] is a direct
    instance attribute, bound to the value passed, and its value is stored
    under its name in neither [options] nor [attr_names], on the instance
    that [__init__] hands to [prepare] at line 54: neither dict has an entry
    under that name at all.  [prepare] turns that instance into the final
    one; when the class does not override [prepare], the two are the same
    instance.  What an overriding [prepare] stores is its own doing. *)
Theorem required_kwargs_are_fields
    (cls : pipeline_class) (rejected : string → option exn)
    (cached_property_init : M unit) (iter_set : gset string → list string)
    (kwargs : list (string * value)) (self : PipelineProperty)
    (name : string) (v : value) :
  construct cls rejected cached_property_init iter_set kwargs = (self, Ok tt) →
  NoDup kwargs.*1 →
  name ∈ required_attrs cls →
  endswith name "_attr" = false →
  passed kwargs name = Some v →
  ∃ s1,
    call_base_init cls cached_property_init object_new = (s1, Ok tt)
    ∧ let s := after_loop cls rejected kwargs s1 in
      prepare cls s = (self, Ok tt)
      ∧ (prepare cls = prepare_base → self = s)
      ∧ __dict__ s !! name = Some (AVal v)
      ∧ no_entry s "options" name
      ∧ no_entry s "attr_names" name
      ∧ (∀ d, __dict__ s !! "options" = Some (ADict d) → d !! name ≠ Some v)
      ∧ (∀ d, __dict__ s !! "attr_names" = Some (ADict d) → d !! name ≠ Some v).
Proof.
  intros Hc Hnd Hreq Hsuf Hkw.
  apply init_Ok_inv in Hc as (s1 & s2 & assigned & Hbase & Hrun & Hfree & _ & Hprep).
  exists s1. split; [done|]. unfold after_loop. rewrite Hrun. cbn [fst].
  destruct (for_each_sets_field cls rejected name v Hreq Hsuf kwargs ∅
              (before_loop s1) s2 assigned Hrun Hfree Hnd)
    as (Hfield & Hopt & Han).
  - by apply passed_elem_of.
  - unfold no_entry. rewrite before_loop_options, before_loop_attr_names.
    split; intros d [= <-]; apply lookup_empty.
  - split; [done|]. split.
    { intros Hp. rewrite Hp in Hprep. unfold prepare_base in Hprep.
      unfold_M. congruence. }
    split; [done|]. split; [done|]. split; [done|].
    split; intros d Hd; [rewrite (Hopt d Hd)|rewrite (Han d Hd)]; done.
Qed.

Lemma required_kwargs_are_fields_witness :
  ∃ s1,
    call_base_init (subclass {["url"]} prepare_example) base_init_demo object_new
    = (s1, Ok tt)
    ∧ let s := after_loop (subclass {["url"]} prepare_example) rejected_demo
                 kwargs_demo s1 in
      prepare (subclass {["url"]} prepare_example) s
      = ((construct (subclass {["url"]} prepare_example) rejected_demo
            base_init_demo iter_demo kwargs_demo).1, Ok tt)
      ∧ (prepare (subclass {["url"]} prepare_example) = prepare_base →
         (construct (subclass {["url"]} prepare_example) rejected_demo
            base_init_demo iter_demo kwargs_demo).1 = s)
      ∧ __dict__ s !! "url" = Some (AVal (VStr "http://example.org"))
      ∧ no_entry s "options" "url"
      ∧ no_entry s "attr_names" "url"
      ∧ (∀ d, __dict__ s !! "options" = Some (ADict d) →
              d !! "url" ≠ Some (VStr "http://example.org"))
      ∧ (∀ d, __dict__ s !! "attr_names" = Some (ADict d) →
              d !! "url" ≠ Some (VStr "http://example.org")).
Proof.
  apply (required_kwargs_are_fields (subclass {["url"]} prepare_example)
           rejected_demo base_init_demo iter_demo kwargs_demo).
  - vm_compute. reflexivity.
  - by_computation.
  - by_computation.
  - reflexivity.
  - vm_compute. reflexivity.
Defined.




(** ** Claims about [get_attr] *)

(** C5.  When [attr_names] maps the logical name to a literal field name and
    the target object has a field of that name, [get_attr] returns the value
    of that field. *)
Theorem get_attr_returns_field
    (self : PipelineProperty) (obj : target_fields)
    (names : gmap string value) (logical literal : string) (v : value) :
  __dict__ self !! "attr_names" = Some (ADict names) →
  names !! logical = Some (VStr literal) →
  obj !! literal = Some v →
  get_attr self obj logical = Ok v.
Proof.
  intros Hdict Hname Hfield. unfold get_attr, subscript, getattr.
  by rewrite Hdict, Hname, Hfield.
Qed.

Lemma get_attr_returns_field_witness :
  get_attr descriptor_demo target_demo "raw_html_attr" = Ok (VStr "hello").
Proof.
  apply (get_attr_returns_field descriptor_demo target_demo
           {["raw_html_attr" := VStr "raw_html"]}
           "raw_html_attr" "raw_html" (VStr "hello")).
  - vm_compute. reflexivity.
  - vm_compute. reflexivity.
  - vm_compute. reflexivity.
Defined.

(** C6.  A logical name that is not a key of [attr_names] makes [get_attr]
    raise: the subscript of line 80 fails with [KeyError] for that name, and
    no value, default or otherwise, is returned. *)
Theorem get_attr_unregistered_raises
    (self : PipelineProperty) (obj : target_fields)
    (names : gmap string value) (name : string) :
  __dict__ self !! "attr_names" = Some (ADict names) →
  names !! name = None →
  get_attr self obj name = Raise (KeyError name)
  ∧ ∀ v, get_attr self obj name ≠ Ok v.
Proof.
  intros Hdict Hname. unfold get_attr, subscript. rewrite Hdict, Hname. by split.
Qed.

Lemma get_attr_unregistered_raises_witness :
  get_attr descriptor_demo target_demo "text_attr" = Raise (KeyError "text_attr")
  ∧ ∀ v, get_attr descriptor_demo target_demo "text_attr" ≠ Ok v.
Proof.
  apply (get_attr_unregistered_raises descriptor_demo target_demo
           {["raw_html_attr" := VStr "raw_html"]} "text_attr").
  - vm_compute. reflexivity.
  - vm_compute. reflexivity.
Defined.

(** C7.  When the literal field name registered under the logical name is
    not a field of the target object, [get_attr] raises [AttributeError] for
    that field name: the error of [getattr] is the result of [get_attr],
    which neither catches it nor substitutes a value. *)
Theorem get_attr_missing_field_raises
    (self : PipelineProperty) (obj : target_fields)
    (names : gmap string value) (logical literal : string) :
  __dict__ self !! "attr_names" = Some (ADict names) →
  names !! logical = Some (VStr literal) →
  obj !! literal = None →
  get_attr self obj logical = getattr obj (VStr literal)
  ∧ get_attr self obj logical = Raise (AttributeError literal).
Proof.
  intros Hdict Hname Hfield. unfold get_attr, subscript, getattr.
  by rewrite Hdict, Hname, Hfield.
Qed.

Lemma get_attr_missing_field_raises_witness :
  get_attr descriptor_demo ∅ "raw_html_attr" = getattr ∅ (VStr "raw_html")
  ∧ get_attr descriptor_demo ∅ "raw_html_attr" = Raise (AttributeError "raw_html").
Proof.
  apply (get_attr_missing_field_raises descriptor_demo ∅
           {["raw_html_attr" := VStr "raw_html"]} "raw_html_attr" "raw_html").
  - vm_compute. reflexivity.
  - vm_compute. reflexivity.
  - reflexivity.
Defined.

(** ** The lazy cache *)

Section cache.

Context {PS : Type}.
Variable provide_value : descriptor_id → target_fields → PS → PS * result value.

Implicit Types (w : world PS) (d : descriptor_id) (o : object_id).

Lemma read_hit d o w t v :
  heap w !! o = Some t → slots t !! d = Some v → read provide_value d o w = Some (w, Ok v).
Proof. intros Ht Hs. unfold read. rewrite Ht. cbn. by rewrite Hs. Qed.

Lemma read_miss_ok d o w t ps v :
  heap w !! o = Some t → slots t !! d = None →
  provide_value d (fields t) (provider_state w) = (ps, Ok v) →
  read provide_value d o w =
    Some (mkWorld (<[o := mkTarget (fields t) (<[d := v]> (slots t))]> (heap w))
            ps ((d, o) :: calls w), Ok v).
Proof. intros Ht Hs Hp. unfold read. rewrite Ht. cbn. by rewrite Hs, Hp. Qed.

Lemma read_miss_raise d o w t ps e :
  heap w !! o = Some t → slots t !! d = None →
  provide_value d (fields t) (provider_state w) = (ps, Raise e) →
  read provide_value d o w = Some (mkWorld (heap w) ps ((d, o) :: calls w), Raise e).
Proof. intros Ht Hs Hp. unfold read. rewrite Ht. cbn. by rewrite Hs, Hp. Qed.

Lemma invocations_cons_eq d o w w' :
  calls w' = (d, o) :: calls w →
  invocations d o w' = S (invocations d o w).
Proof. unfold invocations. intros ->. by rewrite filter_cons_True. Qed.

Lemma invocations_cons_ne d o d' o' w w' :
  calls w' = (d', o') :: calls w → (d', o') ≠ (d, o) →
  invocations d o w' = invocations d o w.
Proof. unfold invocations. intros -> Hne. by rewrite filter_cons_False. Qed.

(** A read is defined on every live object and keeps the set of live
    objects. *)
Lemma read_live d o w :
  o ∈ dom (heap w) →
  ∃ w' r, read provide_value d o w = Some (w', r) ∧ dom (heap w') = dom (heap w).
Proof.
  intros [t Ht]%elem_of_dom. unfold read. rewrite Ht. cbn.
  destruct (slots t !! d) as [v|]; [by eauto|].
  destruct (provide_value _ _ _) as [ps [v|e]]; eexists _, _; (split; [done|]); cbn.
  - rewrite dom_insert_L. apply elem_of_dom_2 in Ht.
    by apply (subseteq_union_1_L {[o]}), singleton_subseteq_l.
  - done.
Qed.

(** A read through one object leaves every other object as it was. *)
Lemma read_other_object d o w w' r o2 :
  read provide_value d o w = Some (w', r) → o2 ≠ o → heap w' !! o2 = heap w !! o2.
Proof.
  unfold read. intros Hr Hne. destruct (heap w !! o) as [t|]; [|done]. cbn in Hr.
  destruct (slots t !! d) as [v|]; [by inversion Hr|].
  destruct (provide_value _ _ _) as [ps [v|e]]; inversion Hr; subst; cbn; [|done].
  by rewrite lookup_insert_ne.
Qed.

(** A filled slot stays filled with the same value, and no read invokes
    its provider again. *)
Lemma read_keeps_slot d o t v d' o' w w' r :
  heap w !! o = Some t → slots t !! d = Some v →
  read provide_value d' o' w = Some (w', r) →
  (∃ t', heap w' !! o = Some t' ∧ slots t' !! d = Some v)
  ∧ invocations d o w' = invocations d o w
  ∧ ((d', o') = (d, o) → r = Ok v).
Proof.
  intros Ht Hs Hr. destruct (decide ((d', o') = (d, o))) as [[= -> ->]|Hne].
  - rewrite (read_hit d o w t v) in Hr by done. inversion Hr; subst. eauto.
  - split; [|split; [|done]].
    + destruct (decide (o' = o)) as [->|Ho].
      * assert (d' ≠ d) by congruence.
        unfold read in Hr. rewrite Ht in Hr. cbn in Hr.
        destruct (slots t !! d') as [v'|]; [inversion Hr; subst; eauto|].
        destruct (provide_value _ _ _) as [ps [v'|e]]; inversion Hr; subst; cbn.
        -- rewrite lookup_insert_eq. eexists. split; [done|]. cbn.
           by rewrite lookup_insert_ne.
        -- eauto.
      * rewrite (read_other_object d' o' w w' r o) by done. eauto.
    + unfold read in Hr. destruct (heap w !! o') as [t'|]; [|done]. cbn in Hr.
      destruct (slots t' !! d') as [v'|]; [by inversion Hr|].
      destruct (provide_value _ _ _) as [ps [v'|e]]; inversion Hr; subst;
        by apply (invocations_cons_ne d o d' o').
Qed.

Lemma run_keeps_slot d o v tr : ∀ w t,
  heap w !! o = Some t → slots t !! d = Some v →
  (∀ p, p ∈ tr → p.2 ∈ dom (heap w)) →
  ∃ w' rs, run provide_value tr w = Some (w', rs)
    ∧ invocations d o w' = invocations d o w
    ∧ (∀ i, tr !! i = Some (d, o) → rs !! i = Some (Ok v))
    ∧ (∃ t', heap w' !! o = Some t' ∧ slots t' !! d = Some v).
Proof.
  induction tr as [|[d' o'] tr IH]; intros w t Ht Hs Hlive.
  - exists w, []. cbn. repeat split; eauto. intros i Hi. by rewrite lookup_nil in Hi.
  - destruct (read_live d' o' w) as (w1 & r & Hr & Hdom).
    { apply (Hlive (d', o')), elem_of_cons. by left. }
    destruct (read_keeps_slot d o t v d' o' w w1 r Ht Hs Hr)
      as ((t1 & Ht1 & Hs1) & Hinv & Hres).
    destruct (IH w1 t1 Ht1 Hs1) as (w2 & rs & Hrun & Hinv2 & Hrs & Hslot).
    { intros p Hp. rewrite Hdom. apply Hlive, elem_of_cons. by right. }
    exists w2, (r :: rs). cbn [run]. rewrite Hr. cbn. rewrite Hrun. cbn.
    split; [done|]. split; [congruence|]. split; [|done].
    intros [|i] Hi; cbn in *; [|by apply Hrs].
    f_equal. apply Hres. congruence.
Qed.

Lemma run_hits d o v w t n :
  heap w !! o = Some t → slots t !! d = Some v →
  run provide_value (replicate n (d, o)) w = Some (w, replicate n (Ok v)).
Proof.
  intros Ht Hs. induction n as [|n IH]; [done|].
  cbn [replicate run]. rewrite (read_hit d o w t v) by done. cbn.
  by rewrite IH.
Qed.

(** C3.  Let the slot of descriptor [d] on object [o] be empty and let the
    provider succeed with [v] on the first read.  Then
    - the first read returns [v], and [N >= 1] reads in a row all return
      [v] and end in the same world as a single read;
    - the provider has been invoked for [(d, o)] exactly once;
    - every other object, with its slots, is left as it was;
    - whatever reads follow, through any descriptor and any live object,
      the provider is not invoked for [(d, o)] again and every read of
      [(d, o)] returns [v]. *)
Theorem read_computes_once
    (d : descriptor_id) (o : object_id) (w : world PS) (t : target)
    (ps : PS) (v : value) :
  heap w !! o = Some t →
  slots t !! d = None →
  provide_value d (fields t) (provider_state w) = (ps, Ok v) →
  ∃ w1,
    read provide_value d o w = Some (w1, Ok v)
    ∧ (∀ N, run provide_value (replicate (S N) (d, o)) w
            = Some (w1, replicate (S N) (Ok v)))
    ∧ invocations d o w1 = S (invocations d o w)
    ∧ (∀ o2, o2 ≠ o → heap w1 !! o2 = heap w !! o2)
    ∧ (∀ tr, (∀ p, p ∈ tr → p.2 ∈ dom (heap w)) →
         ∃ w2 rs, run provide_value tr w1 = Some (w2, rs)
           ∧ invocations d o w2 = invocations d o w1
           ∧ (∀ i, tr !! i = Some (d, o) → rs !! i = Some (Ok v))).
Proof.
  intros Ht Hs Hp.
  pose proof (read_miss_ok d o w t ps v Ht Hs Hp) as Hread.
  set (t1 := mkTarget (fields t) (<[d := v]> (slots t))) in *.
  set (w1 := mkWorld (<[o := t1]> (heap w)) ps ((d, o) :: calls w)) in *.
  assert (Ht1 : heap w1 !! o = Some t1) by apply lookup_insert_eq.
  assert (Hs1 : slots t1 !! d = Some v) by apply lookup_insert_eq.
  exists w1. split; [done|]. split; [|split; [|split]].
  - intros N. cbn [replicate run]. rewrite Hread. cbn.
    by rewrite (run_hits d o v w1 t1 N Ht1 Hs1).
  - by apply invocations_cons_eq.
  - intros o2 Hne. by apply lookup_insert_ne.
  - intros tr Hlive.
    destruct (run_keeps_slot d o v tr w1 t1 Ht1 Hs1)
      as (w2 & rs & Hrun & Hinv & Hrs & _); [|by eauto].
    intros p Hpin. cbn. rewrite dom_insert_L. apply elem_of_union_r. eauto.
Qed.

(** C4.  Let the slot of descriptor [d] on object [o] be empty and let the
    provider raise [e] on a read.  Then the read raises that same [e],
    the objects and all their slots are unchanged (nothing is stored),
    and the next read of [(d, o)] invokes the provider again: its outcome
    is the provider's, and a value is stored only if that outcome is a
    value. *)
Theorem read_failure_not_cached
    (d : descriptor_id) (o : object_id) (w : world PS) (t : target)
    (ps : PS) (e : exn) :
  heap w !! o = Some t →
  slots t !! d = None →
  provide_value d (fields t) (provider_state w) = (ps, Raise e) →
  ∃ w1,
    read provide_value d o w = Some (w1, Raise e)
    ∧ heap w1 = heap w
    ∧ invocations d o w1 = S (invocations d o w)
    ∧ ∃ w2, read provide_value d o w1 = Some (w2, (provide_value d (fields t) ps).2)
        ∧ invocations d o w2 = S (S (invocations d o w))
        ∧ heap w2 =
            match (provide_value d (fields t) ps).2 with
            | Ok v => <[o := mkTarget (fields t) (<[d := v]> (slots t))]> (heap w)
            | Raise _ => heap w
            end.
Proof.
  intros Ht Hs Hp.
  pose proof (read_miss_raise d o w t ps e Ht Hs Hp) as Hread.
  set (w1 := mkWorld (heap w) ps ((d, o) :: calls w)) in *.
  assert (Hinv1 : invocations d o w1 = S (invocations d o w))
    by by apply invocations_cons_eq.
  exists w1. split; [done|]. split; [done|]. split; [done|].
  destruct (provide_value d (fields t) ps) as [ps2 [v|e2]] eqn:Hp2; cbn [snd].
  - eexists. split; [by apply (read_miss_ok d o w1 t ps2 v)|].
    split; [|done]. rewrite <- Hinv1. by apply invocations_cons_eq.
  - eexists. split; [by apply (read_miss_raise d o w1 t ps2 e2)|].
    split; [|done]. rewrite <- Hinv1. by apply invocations_cons_eq.
Qed.

End cache.

Lemma read_computes_once_witness :
  ∃ w1,
    read provider_demo 1%positive 1%positive world_demo = Some (w1, Ok (VStr "hello"))
    ∧ (∀ N, run provider_demo (replicate (S N) (1%positive, 1%positive)) world_demo
            = Some (w1, replicate (S N) (Ok (VStr "hello"))))
    ∧ invocations 1%positive 1%positive w1 = S (invocations 1%positive 1%positive world_demo)
    ∧ (∀ o2, o2 ≠ 1%positive → heap w1 !! o2 = heap world_demo !! o2)
    ∧ (∀ tr, (∀ p, p ∈ tr → p.2 ∈ dom (heap world_demo)) →
         ∃ w2 rs, run provider_demo tr w1 = Some (w2, rs)
           ∧ invocations 1%positive 1%positive w2 = invocations 1%positive 1%positive w1
           ∧ (∀ i, tr !! i = Some (1%positive, 1%positive) →
                   rs !! i = Some (Ok (VStr "hello")))).
Proof.
  apply (read_computes_once provider_demo 1%positive 1%positive world_demo
           (mkTarget target_demo ∅) 1 (VStr "hello")).
  - vm_compute. reflexivity.
  - reflexivity.
  - vm_compute. reflexivity.
Defined.

Lemma read_failure_not_cached_witness :
  ∃ w1,
    read provider_flaky 1%positive 1%positive world_demo = Some (w1, Raise (TypeError "not ready"))
    ∧ heap w1 = heap world_demo
    ∧ invocations 1%positive 1%positive w1 = S (invocations 1%positive 1%positive world_demo)
    ∧ ∃ w2, read provider_flaky 1%positive 1%positive w1
              = Some (w2, (provider_flaky 1%positive target_demo 1).2)
        ∧ invocations 1%positive 1%positive w2 = S (S (invocations 1%positive 1%positive world_demo))
        ∧ heap w2 =
            match (provider_flaky 1%positive target_demo 1).2 with
            | Ok v => <[1%positive := mkTarget target_demo (<[1%positive := v]> ∅)]>
                        (heap world_demo)
            | Raise _ => heap world_demo
            end.
Proof.
  apply (read_failure_not_cached provider_flaky 1%positive 1%positive world_demo
           (mkTarget target_demo ∅) 1 (TypeError "not ready")).
  - vm_compute. reflexivity.
  - reflexivity.
  - vm_compute. reflexivity.
Defined.

(** * Further properties of the code *)

(** ** The order of the keyword arguments *)





(** ** [__init__] and the [prepare] hook *)

(** X2.  For a subclass none of whose required names is [options],
    [attr_names], [required_attrs] or [prepare], and with cooperating base
    classes: when no required name is missing, constructing with a [prepare] hook is constructing without one
    and then running the hook, once, on the instance so obtained.  The hook
    sees every keyword argument already in place and its outcome is the
    outcome of the constructor. *)
Theorem construct_then_prepare
    (required_attrs : gset string) (prepare : M unit)
    (rejected : string → option exn) (cached_property_init : M unit)
    (iter_set : gset string → list string)
    (kwargs : list (string * value)) (s1 : PipelineProperty) :
  base_classes_cooperate rejected cached_property_init required_attrs s1 →
  NoDup kwargs.*1 →
  required_attrs ## init_members →
  required_attrs ⊆ keys kwargs →
  construct (subclass required_attrs prepare) rejected
      cached_property_init iter_set kwargs
  = prepare (construct (subclass required_attrs prepare_base) rejected
      cached_property_init iter_set kwargs).1.
Proof.
  intros Hbase Hnd Hns Hsub.
  rewrite (construct_hook_ok _ prepare _ _ _ _ s1) by done.
  by rewrite (construct_base_ok _ _ _ _ _ s1) by done.
Qed.

Lemma construct_then_prepare_witness :
  construct (subclass {["url"]} prepare_example) rejected_demo base_init_demo iter_demo
    kwargs_demo
  = prepare_example (construct (subclass {["url"]} prepare_base) rejected_demo base_init_demo
                       iter_demo kwargs_demo).1.
Proof.
  apply (construct_then_prepare {["url"]} prepare_example rejected_demo base_init_demo iter_demo
           kwargs_demo instance_after_base_init).
  - apply base_classes_demo_cooperate; by_computation.
  - by_computation.
  - by_computation.
  - by_computation.
Defined.

(** ** [get_attr] *)

(** X5.  [get_attr] returns a value exactly when [attr_names] is bound to a
    dict in which the logical name is registered with a string, and the
    target object has a field of that name; the value returned is then the
    field's.  A registered value that is not a string makes it raise
    [TypeError] whatever the target object holds. *)
Theorem get_attr_succeeds_iff
    (self : PipelineProperty) (obj : target_fields) (name : string) (v : value) :
  (get_attr self obj name = Ok v
     ↔ ∃ names literal,
         __dict__ self !! "attr_names" = Some (ADict names)
         ∧ names !! name = Some (VStr literal)
         ∧ obj !! literal = Some v)
  ∧ (∀ names a,
       __dict__ self !! "attr_names" = Some (ADict names) →
       names !! name = Some a → (∀ literal, a ≠ VStr literal) →
       ∃ msg, get_attr self obj name = Raise (TypeError msg)).
Proof.
  unfold get_attr, subscript, getattr. split; [split|].
  - destruct (__dict__ self !! "attr_names") as [[[| | |s]|names]|]; cbn; try done.
    destruct (names !! name) as [[| | |literal]|] eqn:Hn; cbn; try done.
    destruct (obj !! literal) eqn:Hf; [|done]. intros [= ->].
    by exists names, literal.
  - intros (names & literal & -> & -> & ->). done.
  - intros names a -> -> Hns. destruct a; eauto. by destruct (Hns s).
Qed.

(** X6.  A logical name that does not end in [_attr] cannot be registered
    through the constructor: on an instance built by a subclass (with the
    base-class [prepare] and cooperating base classes) none of whose required
    names is [options], [attr_names] or [required_attrs], [get_attr] raises
    [KeyError] for it on every target object, even when a keyword argument of
    that very name was passed, and whether the constructor raised for a
    missing required attribute or not. *)
Theorem get_attr_needs_suffix
    (required_attrs : gset string) (rejected : string → option exn)
    (cached_property_init : M unit)
    (iter_set : gset string → list string) (kwargs : list (string * value))
    (s1 : PipelineProperty) (obj : target_fields) (name : string) :
  base_classes_cooperate rejected cached_property_init required_attrs s1 →
  NoDup kwargs.*1 →
  required_attrs ## loop_members →
  endswith name "_attr" = false →
  get_attr (construct (subclass required_attrs prepare_base) rejected
      cached_property_init
              iter_set kwargs).1 obj name
  = Raise (KeyError name).
Proof.
  intros Hbase Hnd Hns Hsuf.
  rewrite (construct_base_state _ _ _ _ _ s1) by done.
  destruct Hbase as (_ & Hfree & _ & _ & Hbind).
  destruct (after_loop_classified (subclass required_attrs prepare_base)
              rejected kwargs s1 Hnd Hns Hbind Hfree)
    as [(names & opts & Han & _ & Hcl) _].
  unfold get_attr, subscript. rewrite Han.
  specialize (Hcl name). rewrite Hsuf in Hcl.
  destruct (passed kwargs name); [destruct (decide _)|];
    destruct Hcl as (? & ? & ?); by simplify_option_eq.
Qed.

Lemma get_attr_needs_suffix_witness :
  get_attr (construct (subclass {["url"]} prepare_base) rejected_demo base_init_demo iter_demo
              kwargs_demo).1 target_demo "url"
  = Raise (KeyError "url").
Proof.
  apply (get_attr_needs_suffix {["url"]} rejected_demo base_init_demo iter_demo kwargs_demo
           instance_after_base_init target_demo "url").
  - apply base_classes_demo_cooperate; by_computation.
  - by_computation.
  - by_computation.
  - reflexivity.
Defined.

(** X7.  Construction followed by [get_attr], for a subclass (with the
    base-class [prepare] and cooperating base classes) none of whose required
    names is [options],
    [attr_names] or [required_attrs]: for a keyword argument whose name ends
    in [_attr], [get_attr] under that name is [getattr] of the target object
    at the value passed for the keyword, also on an instance whose
    constructor raised for a missing required attribute. *)
Theorem get_attr_after_construct
    (required_attrs : gset string) (rejected : string → option exn)
    (cached_property_init : M unit)
    (iter_set : gset string → list string) (kwargs : list (string * value))
    (s1 : PipelineProperty) (obj : target_fields) (name : string) (a : value) :
  base_classes_cooperate rejected cached_property_init required_attrs s1 →
  NoDup kwargs.*1 →
  required_attrs ## loop_members →
  endswith name "_attr" = true →
  passed kwargs name = Some a →
  get_attr (construct (subclass required_attrs prepare_base) rejected
      cached_property_init
              iter_set kwargs).1 obj name
  = getattr obj a.
Proof.
  intros Hbase Hnd Hns Hsuf Hkw.
  rewrite (construct_base_state _ _ _ _ _ s1) by done.
  destruct Hbase as (_ & Hfree & _ & _ & Hbind).
  destruct (after_loop_classified (subclass required_attrs prepare_base)
              rejected kwargs s1 Hnd Hns Hbind Hfree)
    as [(names & opts & Han & _ & Hcl) _].
  unfold get_attr, subscript. rewrite Han.
  specialize (Hcl name). rewrite Hkw, Hsuf in Hcl. by destruct Hcl as (-> & _).
Qed.

Lemma get_attr_after_construct_witness :
  get_attr (construct (subclass {["url"]} prepare_base) rejected_demo base_init_demo iter_demo
              kwargs_demo).1 target_demo "raw_html_attr"
  = getattr target_demo (VStr "raw_html").
Proof.
  apply (get_attr_after_construct {["url"]} rejected_demo base_init_demo iter_demo kwargs_demo
           instance_after_base_init target_demo "raw_html_attr" (VStr "raw_html")).
  - apply base_classes_demo_cooperate; by_computation.
  - by_computation.
  - by_computation.
  - reflexivity.
  - vm_compute. reflexivity.
Defined.

(** ** The class as the file defines it *)

(** X9.  A class that defines no [provide_value], as [PipelineProperty]
    itself, cannot be constructed: for every keyword list, line 27 raises
    [AttributeError] for [provide_value] before the base-class initialiser
    runs, and the instance is left as it was. *)
Theorem init_needs_provide_value
    (cls : pipeline_class) (rejected : string → option exn)
    (cached_property_init : M unit)
    (iter_set : gset string → list string) (kwargs : list (string * value))
    (s : PipelineProperty) :
  has_provide_value cls = false →
  __dict__ s !! "provide_value" = None →
  __init__ cls rejected cached_property_init iter_set kwargs s
  = (s, Raise (AttributeError "provide_value")).
Proof.
  intros Hcls Hinst. unfold __init__. unfold mbind, M_bind. unfold bind at 1.
  unfold call_base_init. by rewrite Hinst, Hcls.
Qed.

Lemma init_needs_provide_value_witness :
  __init__ PipelineProperty_class rejected_demo base_init_demo iter_demo kwargs_demo object_new
  = (object_new, Raise (AttributeError "provide_value")).
Proof.
  apply (init_needs_provide_value PipelineProperty_class rejected_demo base_init_demo iter_demo
           kwargs_demo object_new); reflexivity.
Defined.

(** ** The [prepare] of the docstring *)

Lemma prepare_example_run s names opts :
  __dict__ s !! "attr_names" = Some (ADict names) →
  __dict__ s !! "options" = Some (ADict opts) →
  prepare_example s
  = (mkPipelineProperty
       (<["options" := ADict (dict_setdefault opts "use_proxy" (VBool false))]>
          (<["attr_names" :=
               ADict (dict_setdefault names "raw_html_attr" (VStr "raw_html"))]>
             (__dict__ s))), Ok tt).
Proof.
  intros Han Hop. unfold prepare_example. unfold mbind, M_bind, bind.
  unfold setdefault_self at 1. rewrite Han. unfold setdefault_self. cbn.
  by rewrite lookup_insert_ne, Hop.
Qed.

Lemma dict_setdefault_lookup (d : gmap string value) key dflt k :
  dict_setdefault d key dflt !! k
  = if decide (k = key) then Some (default dflt (d !! key)) else d !! k.
Proof.
  unfold dict_setdefault. destruct (decide (k = key)) as [->|Hne].
  - destruct (d !! key) eqn:E; cbn; [done|]. by rewrite lookup_insert_eq.
  - destruct (d !! key); [done|]. by rewrite lookup_insert_ne.
Qed.

(** X10.  With [prepare] overridden as in the docstring example, in a
    subclass none of whose required names is [options], [attr_names],
    [required_attrs] or [prepare], and with cooperating base classes: every
    construction with no required name missing succeeds and leaves [attr_names["raw_html_attr"]] and
    [options["use_proxy"]] defined.  A value passed by keyword is kept, and
    the default is used otherwise (for [use_proxy] also when that name is a
    required attribute, since the keyword then became an instance
    attribute).  All other entries and attributes are as the constructor
    stored them. *)
Theorem prepare_example_fills_defaults
    (required_attrs : gset string) (rejected : string → option exn)
    (cached_property_init : M unit)
    (iter_set : gset string → list string) (kwargs : list (string * value))
    (s1 : PipelineProperty) :
  base_classes_cooperate rejected cached_property_init required_attrs s1 →
  NoDup kwargs.*1 →
  required_attrs ## init_members →
  required_attrs ⊆ keys kwargs →
  ∃ self names opts,
    construct (subclass required_attrs prepare_example) rejected
      cached_property_init
      iter_set kwargs = (self, Ok tt)
    ∧ __dict__ self !! "attr_names" = Some (ADict names)
    ∧ __dict__ self !! "options" = Some (ADict opts)
    ∧ names !! "raw_html_attr"
      = Some (default (VStr "raw_html") (passed kwargs "raw_html_attr"))
    ∧ opts !! "use_proxy"
      = Some (if decide ("use_proxy" ∈ required_attrs) then VBool false
              else default (VBool false) (passed kwargs "use_proxy"))
    ∧ (∀ name, name ≠ "raw_html_attr" →
               names !! name
               = if endswith name "_attr" then passed kwargs name else None)
    ∧ (∀ name, name ≠ "use_proxy" →
               opts !! name
               = if to_options required_attrs name then passed kwargs name
                 else None)
    ∧ (∀ name, name ≠ "attr_names" → name ≠ "options" →
               __dict__ self !! name
               = __dict__ (construct (subclass required_attrs prepare_base) rejected
      cached_property_init iter_set kwargs).1 !! name).
Proof.
  intros Hbase Hnd Hns Hsub.
  rewrite (construct_hook_ok _ prepare_example _ _ _ _ s1) by done.
  rewrite (construct_base_ok _ _ _ _ _ s1) by done. cbn [fst].
  rewrite (after_loop_subclass _ prepare_example prepare_base).
  destruct Hbase as (_ & Hfree & _ & _ & Hbind).
  destruct (after_loop_classified (subclass required_attrs prepare_base)
              rejected kwargs s1 Hnd (loop_members_subseteq _ Hns) Hbind Hfree)
    as [Hclass _].
  change (classified required_attrs kwargs (before_loop s1)
            (after_loop (subclass required_attrs prepare_base) rejected kwargs s1))
    in Hclass.
  destruct Hclass as (names & opts & Han & Hop & Hcl).
  set (s := after_loop (subclass required_attrs prepare_base) rejected kwargs s1)
    in *.
  rewrite (prepare_example_run s names opts Han Hop).
  eexists _, _, _. split; [reflexivity|]. cbn [__dict__].
  rewrite lookup_insert_eq, lookup_insert_ne, lookup_insert_eq by done.
  split; [done|]. split; [done|].
  assert (Hnames : ∀ name, names !! name
                     = if endswith name "_attr" then passed kwargs name else None).
  { intros name. specialize (Hcl name).
    destruct (passed kwargs name) as [v|]; destruct (endswith name "_attr");
      [|destruct (decide (name ∈ required_attrs))| |];
      by destruct Hcl as (? & ? & ?). }
  assert (Hopts : ∀ name, opts !! name
                    = if to_options required_attrs name then passed kwargs name
                      else None).
  { intros name. specialize (Hcl name). unfold to_options.
    destruct (passed kwargs name) as [v|]; destruct (endswith name "_attr"); cbn;
      [|destruct (decide (name ∈ required_attrs));
        [rewrite bool_decide_eq_true_2 by done
        |rewrite bool_decide_eq_false_2 by done]; cbn
       | |destruct (bool_decide (name ∈ required_attrs)); cbn];
      by destruct Hcl as (? & ? & ?). }
  split; [|split; [|split; [|split]]].
  - rewrite dict_setdefault_lookup, decide_True by done. by rewrite Hnames.
  - rewrite dict_setdefault_lookup, decide_True by done. rewrite Hopts.
    unfold to_options. change (endswith "use_proxy" "_attr") with false. cbn.
    destruct (decide ("use_proxy" ∈ required_attrs)).
    + by rewrite bool_decide_eq_true_2.
    + by rewrite bool_decide_eq_false_2.
  - intros name Hne. by rewrite dict_setdefault_lookup, decide_False.
  - intros name Hne. by rewrite dict_setdefault_lookup, decide_False.
  - intros name H1 H2. by rewrite !lookup_insert_ne.
Qed.

Lemma prepare_example_fills_defaults_witness :
  ∃ self names opts,
    construct (subclass {["url"]} prepare_example) rejected_demo base_init_demo iter_demo
      kwargs_suffix_url = (self, Ok tt)
    ∧ __dict__ self !! "attr_names" = Some (ADict names)
    ∧ __dict__ self !! "options" = Some (ADict opts)
    ∧ names !! "raw_html_attr"
      = Some (default (VStr "raw_html") (passed kwargs_suffix_url "raw_html_attr"))
    ∧ opts !! "use_proxy"
      = Some (if decide ("use_proxy" ∈ ({["url"]} : gset string)) then VBool false
              else default (VBool false) (passed kwargs_suffix_url "use_proxy"))
    ∧ (∀ name, name ≠ "raw_html_attr" →
               names !! name
               = if endswith name "_attr" then passed kwargs_suffix_url name
                 else None)
    ∧ (∀ name, name ≠ "use_proxy" →
               opts !! name
               = if to_options {["url"]} name then passed kwargs_suffix_url name
                 else None)
    ∧ (∀ name, name ≠ "attr_names" → name ≠ "options" →
               __dict__ self !! name
               = __dict__ (construct (subclass {["url"]} prepare_base)
                             rejected_demo base_init_demo iter_demo kwargs_suffix_url).1 !! name).
Proof.
  exact (prepare_example_fills_defaults {["url"]} rejected_demo base_init_demo iter_demo
           kwargs_suffix_url instance_after_base_init
           (base_classes_demo_cooperate {["url"]} ltac:(by_computation)
              ltac:(by_computation))
           ltac:(by_computation) ltac:(by_computation) ltac:(by_computation)).
Defined.

(** ** The error message at its edges *)

(** X11.  For a subclass none of whose required names is [options],
    [attr_names] or [required_attrs], and with cooperating base classes: when
    exactly one required name is
    missing, the message of the [TypeError] is [required attrs ] followed by
    [repr] of that name alone, since [join] adds no separator. *)
Theorem init_single_missing_message
    (required_attrs : gset string) (prepare : M unit)
    (rejected : string → option exn) (cached_property_init : M unit)
    (iter_set : gset string → list string)
    (kwargs : list (string * value)) (s1 : PipelineProperty) (n : string) :
  base_classes_cooperate rejected cached_property_init required_attrs s1 →
  set_iteration iter_set →
  NoDup kwargs.*1 →
  required_attrs ## loop_members →
  n ∈ required_attrs →
  n ∉ keys kwargs →
  (∀ m, m ∈ required_attrs → m ≠ n → m ∈ keys kwargs) →
  (construct (subclass required_attrs prepare) rejected
      cached_property_init iter_set
     kwargs).2
  = Raise (TypeError ("required attrs " +:+ repr n)).
Proof.
  intros Hbase Hiter Hnd Hns Hn Hkw Hothers.
  assert (Hmiss : ¬ (required_attrs ⊆ keys kwargs)) by (intros Hsub; auto).
  assert (Hlacked : required_attrs ∖ keys kwargs = {[n]}).
  { apply leibniz_equiv. intros m.
    rewrite elem_of_difference, elem_of_singleton. split.
    - intros [Hm Hno]. destruct (decide (m = n)) as [|Hne]; [done|].
      by destruct Hno; apply Hothers.
    - by intros ->. }
  rewrite (construct_raises _ _ _ _ _ _ s1) by done. cbn [snd].
  rewrite Hlacked. unfold missing_message.
  pose proof (Hiter {[n]}) as Hperm. rewrite elements_singleton in Hperm.
  apply Permutation_singleton_r in Hperm. by rewrite Hperm.
Qed.

Lemma init_single_missing_message_witness :
  (construct (subclass {["url"; "parser"]} prepare_base) rejected_demo base_init_demo iter_demo
     kwargs_demo).2
  = Raise (TypeError ("required attrs " +:+ repr "parser")).
Proof.
  apply (init_single_missing_message {["url"; "parser"]} prepare_base
           rejected_demo base_init_demo iter_demo kwargs_demo instance_after_base_init "parser").
  - apply base_classes_demo_cooperate; by_computation.
  - exact iter_demo_iteration.
  - by_computation.
  - by_computation.
  - by_computation.
  - by_computation.
  - intros m [->%elem_of_singleton| ->%elem_of_singleton]%elem_of_union Hne.
    + by_computation.
    + by destruct Hne.
Defined.

(** X12.  Called without any keyword argument, the constructor of a subclass
    that requires something raises the error of line 52, whatever [prepare]
    and the required names are, once the base-class initialiser has returned
    without binding [required_attrs] and lines 28-35 have bound their
    attributes.  The message names the whole of [required_attrs], joined in
    the order in which the set of missing names is visited, and the instance
    is left as lines 27-35 made it: with empty [attr_names] and [options]
    and no further attribute. *)
Theorem init_without_kwargs
    (required_attrs : gset string) (prepare : M unit)
    (rejected : string → option exn) (cached_property_init : M unit)
    (iter_set : gset string → list string) (s1 : PipelineProperty) :
  base_classes_cooperate rejected cached_property_init ∅ s1 →
  required_attrs ≠ ∅ →
  construct (subclass required_attrs prepare) rejected cached_property_init
    iter_set []
  = (before_loop s1,
     Raise (TypeError ("required attrs " +:+
                       repr (join ", " (iter_set required_attrs))))).
Proof.
  intros (Hbase & Hfree & _ & Hown & _) Hne. unfold construct, __init__.
  destruct (bindable_own_attributes _ Hown) as (R1 & R2 & R3 & R4 & R5).
  unfold mbind, M_bind. unfold bind at 1.
  rewrite call_base_init_subclass, Hbase.
  unfold_M. rewrite R1, R2, R3, R4, R5. cbn. fold (before_loop s1).
  unfold required_attrs_minus. rewrite before_loop_other, Hfree by done. cbn.
  rewrite difference_empty_L, bool_decide_eq_true_2 by done. done.
Qed.

Lemma init_without_kwargs_witness :
  construct (subclass {["url"; "parser"]} prepare_example) rejected_demo
    base_init_demo iter_demo []
  = (before_loop instance_after_base_init,
     Raise (TypeError ("required attrs " +:+
                       repr (join ", " (iter_demo {["url"; "parser"]}))))).
Proof.
  apply (init_without_kwargs {["url"; "parser"]} prepare_example rejected_demo
           base_init_demo iter_demo instance_after_base_init).
  - apply base_classes_demo_cooperate; by_computation.
  - by_computation.
Defined.
